(** * buffer-static-upload: a shallow embedding of [main.go]

    The tool fingerprints static assets, derives cache-busting object keys,
    asks the object store whether a key is already present, uploads what is
    missing and writes a manifest from local filenames to public URLs.

    Go strings are [string], file contents and request bodies are
    [list byte], the manifest ([map[string]string]) is a [gmap string string].
    Go's [error] interface is the inductive [error]; a nil error is [None].
    Calls that print, ask the store or write a file are recorded, in order,
    as [event]s; format strings stand as the source writes them. *)

From Stdlib Require Import Strings.Byte Strings.Ascii NArith.
From stdpp Require Import base option list gmap strings.

(** ** Errors *)

Inductive error : Type :=
  | PathError (op path reason : string)   (* *os.PathError of package os *)
  | AwsError (code : string)              (* awserr.Error of the SDK *)
  | ErrBadPattern                         (* filepath.ErrBadPattern *)
  | ErrStaticCredentialsEmpty             (* credentials.ErrStaticCredentialsEmpty *)
  | MarshalError (reason : string).       (* encoding/json failures *)

(** ** Package-level constants *)

Definition VERSION : string := "0.2.0".
Definition defaultS3Bucket : string := "static.buffer.com".

(** ** Strings: the parts of [strings] and [path/filepath] the code calls *)

Module strings.

(** [s[i:]] and [s[:i]] on Go strings. *)
Fixpoint drop (i : nat) (s : string) : string :=
  match i, s with
  | 0, _ => s
  | S _, EmptyString => EmptyString
  | S j, String _ s' => drop j s'
  end.

Fixpoint take (i : nat) (s : string) : string :=
  match i, s with
  | 0, _ => EmptyString
  | S _, EmptyString => EmptyString
  | S j, String c s' => String c (take j s')
  end.

Fixpoint HasPrefix (s pre : string) : bool :=
  match pre, s with
  | EmptyString, _ => true
  | String _ _, EmptyString => false
  | String a pre', String b s' => Ascii.eqb a b && HasPrefix s' pre'
  end.

(** [strings.Index]: the byte offset of the first occurrence of [substr]
    in [s]; Go's [-1] is [None]. *)
Fixpoint Index (s substr : string) : option nat :=
  if HasPrefix s substr then Some 0
  else match s with
       | EmptyString => None
       | String _ s' => S <$> Index s' substr
       end.

(** [strings.Replace(s, old, new, 1)], the only way the program calls it.
    Go returns [s] when [old == new] or when [old] does not occur; with
    one replacement the loop body runs once, at [j = Index(s, old)]
    (which is [0] for an empty [old]), and writes
    [s[:j] + new + s[j+len(old):]]. *)
Definition Replace1 (s old new : string) : string :=
  if decide (old = new) then s
  else match Index s old with
       | None => s
       | Some j => take j s +:+ new +:+ drop (j + String.length old) s
       end.

(** [strings.Split(s, ",")]: one more element than there are commas. *)
Fixpoint SplitComma (s : string) : list string :=
  match s with
  | EmptyString => [EmptyString]
  | String c s' =>
      if Ascii.eqb c ","%char then EmptyString :: SplitComma s'
      else match SplitComma s' with
           | h :: t => String c h :: t
           | [] => [String c EmptyString]
           end
  end.

(** [strings.ContainsAny(s, chars)]. *)
Fixpoint ContainsAny (s : string) (chars : list ascii) : bool :=
  match s with
  | EmptyString => false
  | String c s' => bool_decide (c ∈ chars) || ContainsAny s' chars
  end.

End strings.

Module filepath.

(** [os.IsPathSeparator] on Unix. *)
Definition IsPathSeparator (c : ascii) : bool := Ascii.eqb c "/"%char.

(** [filepath.Ext]: scan [i] from [len(path)-1] down to [0], stopping at
    a path separator; the first dot met gives [path[i:]].  [n] is [i+1]. *)
Fixpoint Ext_from (path : string) (n : nat) : string :=
  match n with
  | 0 => EmptyString
  | S i =>
      match String.get i path with
      | Some c =>
          if IsPathSeparator c then EmptyString
          else if Ascii.eqb c "."%char then strings.drop i path
          else Ext_from path i
      | None => EmptyString
      end
  end.

Definition Ext (path : string) : string := Ext_from path (String.length path).

End filepath.

(** ** Filename versioner *)

(** GetVersionedFilename returns a new filename with the version before the
    extension. *)
Definition GetVersionedFilename (filename version : string) : string :=
  let ext := filepath.Ext filename in
  let versionedExt := "." +:+ version +:+ ext in
  let versionedFilename := strings.Replace1 filename ext versionedExt in
  versionedFilename.

(** ** The local filesystem and open files *)

Inductive node : Type :=
  | Regular (data : list byte)
  | Directory.

Module os.

(** An [*os.File]: the node it was opened on and the read offset, which
    every read through the handle advances. *)
Record File : Type := mkFile { f_name : string; f_node : node; f_off : nat }.

Definition ENOENT : string := "no such file or directory".
Definition EISDIR : string := "is a directory".

(** The empty path names nothing. *)
Definition Lstat (fs : gmap string node) (name : string) : option error :=
  if decide (name = "") then Some (PathError "lstat" name ENOENT)
  else match fs !! name with
       | Some _ => None
       | None => Some (PathError "lstat" name ENOENT)
       end.

Definition Open (fs : gmap string node) (name : string) : File + error :=
  if decide (name = "") then inr (PathError "open" name ENOENT)
  else match fs !! name with
       | Some n => inl (mkFile name n 0)
       | None => inr (PathError "open" name ENOENT)
       end.

Definition Getenv (env : gmap string string) (key : string) : string :=
  default "" (env !! key).

End os.

Module io.

(** Reading a handle to end of file through [io.Reader]: the bytes from
    the current offset on, and the handle left at end of file.  This is
    what [io.Copy(dst, file)] hands to [dst]. *)
Definition ReadToEOF (f : os.File) : (list byte + error) * os.File :=
  match os.f_node f with
  | Regular data =>
      (inl (drop (os.f_off f) data),
       os.mkFile (os.f_name f) (os.f_node f) (os.f_off f `max` length data))
  | Directory => (inr (PathError "read" (os.f_name f) os.EISDIR), f)
  end.

End io.

Module hex.

Definition hextable : string := "0123456789abcdef".

Definition digit (n : N) : ascii :=
  default "0"%char (String.get (N.to_nat n) hextable).

(** [hex.EncodeToString]: [hextable[v>>4]] then [hextable[v&0x0f]]. *)
Fixpoint EncodeToString (src : list byte) : string :=
  match src with
  | [] => ""
  | v :: rest =>
      String (digit (N.shiftr (Byte.to_N v) 4))
        (String (digit (N.land (Byte.to_N v) 15)) (EncodeToString rest))
  end.

End hex.

(** ** What the program takes from libraries *)

(** Symbolic instants: the program only builds them and hands them on. *)
Inductive Time : Type :=
  | Now
  | AddDate (t : Time) (years months days : Z).

(** Functions of Go's standard library that the program calls and whose
    result it only passes along. *)
Class GoLib : Type := {
  (** [md5.New()], [Write], [Sum(nil)] *)
  md5_Sum : list byte → list byte;
  (** [path.Join] *)
  path_Join : list string → string;
  (** [mime.TypeByExtension] *)
  mime_TypeByExtension : string → string;
  (** [json.MarshalIndent(m, prefix, indent)] *)
  json_MarshalIndent : gmap string string → string → string → list byte * option error;
  (** the order in which [range] visits a map *)
  map_range : gmap string string → list (string * string);
  (** [csv.Writer]: the bytes written for a sequence of rows *)
  csv_Write : list (list string) → list byte;
  (** the error of [filepath.Match(pattern, name)] on a non-empty pattern *)
  Match_scan_error : string → option error;
  (** [filepath.Glob] on a pattern with meta characters *)
  glob_meta : gmap string node → string → list string * option error;
}.

(** The request [s3manager] finally sends for an upload. *)
Record PutRequest : Type := mkPut {
  put_Bucket : string;
  put_Key : string;
  put_ContentType : string;
  put_CacheControl : string;
  put_Expires : Time;
  put_Body : list byte;
}.

(** The object store behind [svc] and [uploader], with its state [R].
    [HeadObject] is the result of sending a HEAD request ([None] is a nil
    error); [PutObject] stores a body or fails. *)
Class S3API (R : Type) : Type := {
  HeadObject : R → string → string → option error;
  PutObject : R → PutRequest → R * option error;
}.

(** [s3manager.UploadInput]; [Body] is an [io.Reader]. *)
Record UploadInput : Type := mkUploadInput {
  Bucket : string;
  Key : string;
  ContentType : string;
  CacheControl : string;
  Expires : Time;
  Body : os.File;
}.

(** ** What a run does, in order *)

Inductive arg : Type :=
  | AStr (s : string)
  | AInt (n : nat)
  | AErr (e : error)
  | AElapsed
  | AErrs (l : list error).

Inductive event : Type :=
  | EvPrint (s : string)
  | EvPrintf (format : string) (args : list arg)
  | EvHead (bucket key : string)
  | EvPut (req : PutRequest)
  | EvWriteFile (name : string) (data : list byte).

(** Result of [VersionAndUploadFiles]: the two returned values, the store
    as the run left it and what the run did. *)
Record Run (R : Type) : Type := mkRun {
  run_manifest : gmap string string;
  run_err : option error;
  run_remote : R;
  run_trace : list event;
}.
Arguments mkRun {R} _ _ _ _.
Arguments run_manifest {R} _.
Arguments run_err {R} _.
Arguments run_remote {R} _.
Arguments run_trace {R} _.

(** Result of the loop body for one file. *)
Record Step (R : Type) : Type := mkStep {
  step_res : string + error;     (* the file's URL, or the error returned *)
  step_remote : R;
  step_trace : list event;
}.
Arguments mkStep {R} _ _ _.
Arguments step_res {R} _.
Arguments step_remote {R} _.
Arguments step_trace {R} _.

Section Program.
Context `{!GoLib} {R : Type} `{!S3API R}.

(** GetFileMd5 returns a checksum for a given file *)
Definition GetFileMd5 (file : os.File) : string * option error * os.File :=
  match io.ReadToEOF file with
  | (inr err, file') => ("", Some err, file')
  | (inl data, file') =>
      let hashInBytes := take 16 (md5_Sum data) in
      let fileHash := hex.EncodeToString hashInBytes in
      (fileHash, None, file')
  end.

(** GetFileMimeType returns the mime type of a file using its extension *)
Definition GetFileMimeType (filename : string) : string :=
  let ext := filepath.Ext filename in
  mime_TypeByExtension ext.

(** HasPreviousUpload performs a HEAD request to check if a file has been
    uploaded already *)
Definition HasPreviousUpload (svc : R) (bucket filename : string) : bool :=
  let err := HeadObject svc bucket filename in
  match err with
  | None => true
  | Some _ => false
  end.

(** GetFileURL returns the final url of the file *)
Definition GetFileURL (bucket bucketFilename : string) : string :=
  if decide (bucket = defaultS3Bucket)
  then "https://" +:+ path_Join [bucket; bucketFilename]
  else "https://s3.amazonaws.com" +:+ path_Join ["/"; bucket; "/"; bucketFilename].

(** [uploader.Upload] of the SDK: [Body] is an [io.Reader]; it is read
    from the offset the handle is at, to its end, and sent in one request. *)
Definition uploader_Upload (svc : R) (input : UploadInput)
  : R * option error * list event :=
  match io.ReadToEOF (Body input) with
  | (inr err, _) => (svc, Some err, [])
  | (inl data, _) =>
      let req := mkPut (Bucket input) (Key input) (ContentType input)
                       (CacheControl input) (Expires input) data in
      let '(svc', err) := PutObject svc req in
      (svc', err, [EvPut req])
  end.

(** UploadFile uploads a given file to the s3 bucket *)
Definition UploadFile (svc : R) (file : os.File) (filename bucket : string)
  : R * option error * list event :=
  let mimeType := GetFileMimeType filename in
  uploader_Upload svc
    (mkUploadInput bucket filename mimeType "public, max-age=31520626"
                   (AddDate Now 10 0 0) file).

Definition versionable (ext : string) : bool :=
  bool_decide (ext = ".js") || bool_decide (ext = ".css").

(** The name to upload under and the handle as fingerprinting left it
    (lines 165-173 of the loop body). *)
Definition uploadFilenameOf (filename : string) (file : os.File)
  : (string * os.File) + error :=
  let ext := filepath.Ext filename in
  if versionable ext then
    match GetFileMd5 file with
    | (_, Some errMd5, _) => inr errMd5
    | (checksum, None, file') => inl (GetVersionedFilename filename checksum, file')
    end
  else inl (filename, file).

Definition outcomeLine (shouldUpload : bool) (filename : string) : event :=
  if shouldUpload
  then EvPrintf "%-10s %s\n" [AStr "Uploaded"; AStr filename]
  else EvPrintf "%-10s %s\n" [AStr "Skipped"; AStr filename].

(** One iteration of the loop of [VersionAndUploadFiles]. *)
Definition processFile (fs : gmap string node) (bucket directory : string)
    (dryRun : bool) (svc : R) (filename : string) : Step R :=
  match os.Open fs filename with
  | inr err => mkStep (inr err) svc []
  | inl file =>
      match uploadFilenameOf filename file with
      | inr errMd5 => mkStep (inr errMd5) svc []
      | inl (uploadFilename, file) =>
          let bucketFilename := path_Join [directory; uploadFilename] in
          let fileURL := GetFileURL bucket bucketFilename in
          let shouldUpload := negb (HasPreviousUpload svc bucket bucketFilename) in
          let head := EvHead bucket bucketFilename in
          if shouldUpload && negb dryRun then
            match UploadFile svc file bucketFilename bucket with
            | (svc', Some err, evs) => mkStep (inr err) svc' (head :: evs)
            | (svc', None, evs) =>
                mkStep (inl fileURL) svc'
                       (head :: evs ++ [outcomeLine shouldUpload filename])
            end
          else mkStep (inl fileURL) svc [head; outcomeLine shouldUpload filename]
      end
  end.

Fixpoint uploadLoop (fs : gmap string node) (bucket directory : string)
    (dryRun : bool) (filenames : list string) (svc : R)
    (fileVersions : gmap string string) : Run R :=
  match filenames with
  | [] => mkRun fileVersions None svc []
  | filename :: rest =>
      let st := processFile fs bucket directory dryRun svc filename in
      match step_res st with
      | inr err => mkRun fileVersions (Some err) (step_remote st) (step_trace st)
      | inl fileURL =>
          let run := uploadLoop fs bucket directory dryRun rest (step_remote st)
                                (<[filename := fileURL]> fileVersions) in
          mkRun (run_manifest run) (run_err run) (run_remote run)
                (step_trace st ++ run_trace run)
      end
  end.

(** VersionAndUploadFiles will version files and upload them to s3 and
    return a map of filenames and their version hashes *)
Definition VersionAndUploadFiles (fs : gmap string node) (svc : R)
    (bucket directory : string) (filenames : list string) (dryRun : bool) : Run R :=
  let fileVersions : gmap string string := ∅ in
  let run := uploadLoop fs bucket directory dryRun filenames svc fileVersions in
  mkRun (run_manifest run) (run_err run) (run_remote run)
        (EvPrintf "Uploading to %s/%s\n" [AStr bucket; AStr directory] :: run_trace run).

(** The object key composed for a file, and the URL the manifest records
    for it, when the file can be opened (and fingerprinted, if it is
    versioned): lines 159-175 for one filename. *)
Definition objectKey (fs : gmap string node) (directory filename : string)
  : option string :=
  match os.Open fs filename with
  | inr _ => None
  | inl file =>
      match uploadFilenameOf filename file with
      | inr _ => None
      | inl (uploadFilename, _) => Some (path_Join [directory; uploadFilename])
      end
  end.

Definition resolvedURL (fs : gmap string node) (bucket directory filename : string)
  : option string :=
  GetFileURL bucket <$> objectKey fs directory filename.

(** [filepath.Glob]: a malformed pattern is an error; a pattern without
    meta characters matches itself when [Lstat] finds it. *)
Definition Match_error (pattern : string) : option error :=
  match pattern with
  | EmptyString => None
  | _ => Match_scan_error pattern
  end.

Definition hasMeta (path : string) : bool :=
  strings.ContainsAny path ["*"; "?"; "["; "\"]%char.

Definition Glob (fs : gmap string node) (pattern : string)
  : list string * option error :=
  match Match_error pattern with
  | Some err => ([], Some err)
  | None =>
      if negb (hasMeta pattern) then
        match os.Lstat fs pattern with
        | Some _ => ([], None)
        | None => ([pattern], None)
        end
      else glob_meta fs pattern
  end.

Fixpoint globLoop (fs : gmap string node) (globs : list string)
    (files : list string) : list string * option error :=
  match globs with
  | [] => (files, None)
  | glob :: rest =>
      match Glob fs glob with
      | (_, Some err) => (files, Some err)
      | (fileList, None) => globLoop fs rest (files ++ fileList)
      end
  end.

(** GetFilesFromGlobsList returns a list of files that match a list of
    comma-delimited file path globs *)
Definition GetFilesFromGlobsList (fs : gmap string node) (globList : string)
  : list string * option error :=
  let files : list string := [] in
  let globs := strings.SplitComma globList in
  globLoop fs globs files.

(** FormatManifest returns the file version manifest in json or csv format *)
Definition FormatManifest (fileVersions : gmap string string) (format : string)
  : list byte * option error :=
  if decide (format = "json") then json_MarshalIndent fileVersions "" "  "
  else if decide (format = "csv") then
    (csv_Write ((λ '(filename, uri), [filename; uri]) <$> map_range fileVersions), None)
  else ([], None).

(** SetupS3Uploader: static credentials from the environment;
    [creds.Get()] fails when either value is empty. *)
Definition SetupS3Uploader (env : gmap string string) : option error :=
  let awsAccessKeyID := os.Getenv env "AWS_ACCESS_KEY_ID" in
  let awsSecretAccessKey := os.Getenv env "AWS_SECRET_ACCESS_KEY" in
  if decide (awsAccessKeyID = "" ∨ awsSecretAccessKey = "")
  then Some ErrStaticCredentialsEmpty
  else None.

(** [ioutil.WriteFile]: create or truncate [name] and write [data]. *)
Definition WriteFile (fs : gmap string node) (name : string) (data : list byte)
  : gmap string node + error :=
  if decide (name = "") then inr (PathError "open" name os.ENOENT)
  else match fs !! name with
       | Some Directory => inr (PathError "open" name os.EISDIR)
       | _ => inl (<[name := Regular data]> fs)
       end.

(** ** The process *)

Record Flags : Type := mkFlags {
  s3Bucket : string;
  directory : string;
  filesArg : string;
  outputFilename : string;
  format : string;
  dryRun : bool;
  printVersion : bool;
}.


Record Process : Type := mkProcess {
  exit_status : nat;
  proc_fs : gmap string node;
  proc_remote : R;
  proc_trace : list event;
}.

(** [fatal(format, a...)]: print and [os.Exit(1)]. *)
Definition fatal (fs : gmap string node) (svc : R) (before : list event)
    (format : string) (a : list error) : Process :=
  let s := "Error: " +:+ format +:+ "\n" in
  mkProcess 1 fs svc
    (before ++ [match a with [] => EvPrint s | _ => EvPrintf s [AErrs a] end]).

Definition main (flags : Flags) (env : gmap string string)
    (fs : gmap string node) (svc : R) : Process :=
  if printVersion flags then
    mkProcess 0 fs svc [EvPrintf "%s\n" [AStr VERSION]]
  else if decide (directory flags = "" ∧ s3Bucket flags = defaultS3Bucket) then
    fatal fs svc []
      "To use the default bucket you need to specify an upload directory (-dir)" []
  else
    match GetFilesFromGlobsList fs (filesArg flags) with
    | (_, Some err) => fatal fs svc [] "failed to get files %s" [err]
    | (files, None) =>
        let t1 := [EvPrintf "Found %d files to upload and version:\n"
                            [AInt (length files)]] in
        match SetupS3Uploader env with
        | Some err => fatal fs svc t1 "failed to load AWS credentials %s" [err]
        | None =>
            let run := VersionAndUploadFiles fs svc (s3Bucket flags)
                         (directory flags) files (dryRun flags) in
            let t2 := t1 ++ run_trace run in
            match run_err run with
            | Some err =>
                fatal fs (run_remote run) t2 "failed to upload files %s" [err]
            | None =>
                match FormatManifest (run_manifest run) (format flags) with
                | (_, Some err) =>
                    fatal fs (run_remote run) t2
                      "failed to format versions manifest file %s" [err]
                | (output, None) =>
                    if negb (dryRun flags) then
                      match WriteFile fs (outputFilename flags) output with
                      | inr err =>
                          fatal fs (run_remote run) t2
                            "failed to write versions mainifest file %s" [err]
                      | inl fs' =>
                          mkProcess 0 fs' (run_remote run)
                            (t2 ++ [EvWriteFile (outputFilename flags) output;
                                    EvPrintf
                                      "\nSuccessfully uploaded static assets and generated %s in %s\n"
                                      [AStr (outputFilename flags); AElapsed]])
                      end
                    else
                      mkProcess 0 fs (run_remote run)
                        (t2 ++ [EvPrintf "\nCompleted dry run in %s\n" [AElapsed]])
                end
            end
        end
    end.

End Program.

(** ** Reading a trace *)

Definition uploads (t : list event) : list PutRequest :=
  omap (λ e, match e with EvPut req => Some req | _ => None end) t.

Definition heads (t : list event) : list (string * string) :=
  omap (λ e, match e with EvHead b k => Some (b, k) | _ => None end) t.

Definition writes (t : list event) : list (string * list byte) :=
  omap (λ e, match e with EvWriteFile n d => Some (n, d) | _ => None end) t.

(** The progress lines: which word was printed for which file. *)
Definition outcomes (t : list event) : list (string * string) :=
  omap (λ e, match e with
             | EvPrintf fmt [AStr word; AStr filename] =>
                 if decide (fmt = "%-10s %s\n") then Some (word, filename) else None
             | _ => None
             end) t.

(** The word printed for a file, by what the existence check answered. *)
Definition outcomeWord (present : bool) : string :=
  if present then "Skipped" else "Uploaded".

(** Recording one file in the manifest: [fileVersions[filename] = fileURL]. *)
Definition record `{!GoLib} (fs : gmap string node) (bucket directory : string)
    (m : gmap string string) (filename : string) : gmap string string :=
  match resolvedURL fs bucket directory filename with
  | Some url => <[filename := url]> m
  | None => m
  end.


(** ** Notions used to state further properties *)

(** The value of a hexadecimal digit of [hex.hextable], and the bytes a
    string of such digits stands for: the inverse of [hex.EncodeToString]. *)
Definition hexValue (c : ascii) : option N :=
  N.of_nat <$> strings.Index hex.hextable (String c EmptyString).

Fixpoint hexDecode (s : string) : option (list byte) :=
  match s with
  | EmptyString => Some []
  | String a (String b rest) =>
      hi ← hexValue a; lo ← hexValue b;
      v ← Byte.of_N (16 * hi + lo);
      l ← hexDecode rest;
      Some (v :: l)
  | String _ EmptyString => None
  end.

(** Whether [os.Lstat] finds the path. *)
Definition lstatOk (fs : gmap string node) (name : string) : bool :=
  match os.Lstat fs name with
  | None => true
  | Some _ => false
  end.

(** Whether a character occurs in a string. *)
Fixpoint occurs (c : ascii) (s : string) : bool :=
  match s with
  | EmptyString => false
  | String x s' => Ascii.eqb x c || occurs c s'
  end.

(** A dot followed by characters that are neither dots nor separators. *)
Definition dotPlain (e : string) : Prop :=
  ∃ e', e = String "." e'
        ∧ ∀ i c, String.get i e' = Some c →
                 filepath.IsPathSeparator c = false ∧ Ascii.eqb c "." = false.

(** The request [UploadFile] has sent for a key and a body. *)
Definition uploadRequest `{!GoLib} (bucket key : string) (data : list byte)
  : PutRequest :=
  mkPut bucket key (GetFileMimeType key) "public, max-age=31520626"
        (AddDate Now 10 0 0) data.

(** The ways one iteration of the loop can go. *)
Inductive stepOf `{!GoLib} {R : Type} `{!S3API R}
    (fs : gmap string node) (bucket directory : string) (dryRun : bool)
    (svc : R) (filename : string) : Step R → Prop :=
  | step_unreadable (err : error) :
      objectKey fs directory filename = None →
      stepOf fs bucket directory dryRun svc filename (mkStep (inr err) svc [])
  | step_skipped (key : string) :
      objectKey fs directory filename = Some key →
      HasPreviousUpload svc bucket key = true →
      stepOf fs bucket directory dryRun svc filename
        (mkStep (inl (GetFileURL bucket key)) svc
                [EvHead bucket key; outcomeLine false filename])
  | step_planned (key : string) :
      objectKey fs directory filename = Some key →
      HasPreviousUpload svc bucket key = false → dryRun = true →
      stepOf fs bucket directory dryRun svc filename
        (mkStep (inl (GetFileURL bucket key)) svc
                [EvHead bucket key; outcomeLine true filename])
  | step_body_failed (key : string) (err : error) :
      objectKey fs directory filename = Some key →
      HasPreviousUpload svc bucket key = false → dryRun = false →
      stepOf fs bucket directory dryRun svc filename
        (mkStep (inr err) svc [EvHead bucket key])
  | step_put_failed (key : string) (data : list byte) (svc' : R) (err : error) :
      objectKey fs directory filename = Some key →
      HasPreviousUpload svc bucket key = false → dryRun = false →
      PutObject svc (uploadRequest bucket key data) = (svc', Some err) →
      stepOf fs bucket directory dryRun svc filename
        (mkStep (inr err) svc'
                [EvHead bucket key; EvPut (uploadRequest bucket key data)])
  | step_uploaded (key : string) (data : list byte) (svc' : R) :
      objectKey fs directory filename = Some key →
      HasPreviousUpload svc bucket key = false → dryRun = false →
      PutObject svc (uploadRequest bucket key data) = (svc', None) →
      stepOf fs bucket directory dryRun svc filename
        (mkStep (inl (GetFileURL bucket key)) svc'
                [EvHead bucket key; EvPut (uploadRequest bucket key data);
                 outcomeLine true filename]).

(** The key is the one composed for some file of the list. *)
Definition composedFrom `{!GoLib} (fs : gmap string node) (directory : string)
    (filenames : list string) (key : string) : Prop :=
  ∃ f, f ∈ filenames ∧ objectKey fs directory f = Some key.

(** An object store that keeps what was put: after a successful put the
    object is found, and objects found before are still found. *)
Class KeepsObjects (R : Type) `{!S3API R} : Prop := {
  put_present : ∀ (svc svc' : R) (req : PutRequest),
    PutObject svc req = (svc', None) →
    HeadObject svc' (put_Bucket req) (put_Key req) = None;
  put_keeps : ∀ (svc svc' : R) (req : PutRequest) (bucket key : string),
    PutObject svc req = (svc', None) →
    HeadObject svc bucket key = None →
    HeadObject svc' bucket key = None;
}.

(** ** An in-memory object store and a small library, to run examples *)

(** The store maps (bucket, key) to the request that put the object. *)
Abbreviation store := (gmap (string * string) PutRequest).

Definition memHead (s : store) (bucket key : string)
  : option error :=
  match s !! (bucket, key) with
  | Some _ => None
  | None => Some (AwsError "NotFound")
  end.

Definition memPut (s : store) (req : PutRequest) : store * option error :=
  (<[(put_Bucket req, put_Key req) := req]> s, None).

Definition memS3 : S3API store :=
  {| HeadObject := memHead; PutObject := memPut |}.

Module path.

Fixpoint fields (s : string) : list string :=
  match s with
  | EmptyString => [EmptyString]
  | String c s' =>
      if Ascii.eqb c "/"%char then EmptyString :: fields s'
      else match fields s' with
           | h :: t => String c h :: t
           | [] => [String c EmptyString]
           end
  end.

Fixpoint joinWith (sep : string) (l : list string) : string :=
  match l with
  | [] => ""
  | [x] => x
  | x :: rest => x +:+ sep +:+ joinWith sep rest
  end.

(** One path element against the elements kept so far (innermost first). *)
Definition cleanStep (rooted : bool) (kept : list string) (c : string) : list string :=
  if decide (c = "" ∨ c = ".") then kept
  else if decide (c = "..") then
    match kept with
    | top :: rest => if decide (top = "..") then c :: kept else rest
    | [] => if rooted then [] else [c]
    end
  else c :: kept.

Definition Clean (p : string) : string :=
  if decide (p = "") then "."
  else
    let rooted := strings.HasPrefix p "/" in
    let body := joinWith "/" (reverse (foldl (cleanStep rooted) [] (fields p))) in
    if rooted then "/" +:+ body
    else if decide (body = "") then "." else body.

Definition Join (elem : list string) : string :=
  match filter (λ e, e ≠ "") elem with
  | [] => ""
  | es => Clean (joinWith "/" es)
  end.

End path.

Definition exampleMime (ext : string) : string :=
  if decide (ext = ".js") then "application/javascript"
  else if decide (ext = ".css") then "text/css; charset=utf-8"
  else if decide (ext = ".png") then "image/png"
  else "".

Definition exampleCsv (rows : list (list string)) : list byte :=
  String.list_byte_of_string (path.joinWith "" ((λ row, path.joinWith "," row +:+ "\n") <$> rows)).

(** The digest is a stand-in of the right length; every theorem below is
    stated for an arbitrary [GoLib]. *)
Definition exampleLib : GoLib :=
  {| md5_Sum := λ data, take 16 (data ++ replicate 16 x00);
     path_Join := path.Join;
     mime_TypeByExtension := exampleMime;
     json_MarshalIndent := λ m _ _,
       (exampleCsv ((λ '(k, v), [k; v]) <$> map_to_list m), None);
     map_range := map_to_list;
     csv_Write := exampleCsv;
     Match_scan_error := λ _, None;
     glob_meta := λ _ _, ([], None) |}.

(** A library whose pattern check rejects the pattern [[]. *)
Definition strictLib : GoLib :=
  {| md5_Sum := md5_Sum (GoLib := exampleLib);
     path_Join := path.Join;
     mime_TypeByExtension := exampleMime;
     json_MarshalIndent := json_MarshalIndent (GoLib := exampleLib);
     map_range := map_to_list;
     csv_Write := exampleCsv;
     Match_scan_error := λ p, if decide (p = "[") then Some ErrBadPattern else None;
     glob_meta := λ _ _, ([], None) |}.

(** A build directory, credentials and invocations for the examples. *)
Definition exampleFs : gmap string node :=
  {[ "app.js" := Regular [x61; x62; x63];
     "style.css" := Regular [x62; x6f; x64; x79; x7b; x7d];
     "logo.png" := Regular [x89; x50; x4e; x47];
     "Makefile" := Regular [x61; x6c; x6c; x3a] ]}.

Definition exampleEnv : gmap string string :=
  {[ "AWS_ACCESS_KEY_ID" := "AKIAEXAMPLE"; "AWS_SECRET_ACCESS_KEY" := "secret" ]}.

Definition exampleFiles : list string := ["app.js"; "style.css"; "logo.png"].

(** A list with a file that does not exist, and a glob list with a name
    that does not exist and an empty element. *)
Definition brokenFiles : list string := ["app.js"; "missing.js"; "logo.png"].
Definition plainGlobs : string := "app.js,nope.js,,logo.png".
Definition badGlobs : string := "app.js,[,logo.png".


(** The default bucket with a directory, no files. *)
Definition noFilesFlags : Flags :=
  mkFlags defaultS3Bucket "v1" "" "staticAssets.json" "json" false false.

Definition dryRunFlags : Flags :=
  mkFlags defaultS3Bucket "v1" "" "staticAssets.json" "json" true false.


Example join_key : path.Join ["v1"; "app.abc.js"] = "v1/app.abc.js".
Proof. reflexivity. Qed.
Example join_rooted : path.Join ["/"; "bucket"; "/"; "v1/../v2//logo.png"] = "/bucket/v2/logo.png".
Proof. reflexivity. Qed.
Example hex_bytes : hex.EncodeToString [x00; x1f; xa5; xff] = "001fa5ff".
Proof. reflexivity. Qed.
Example versioned_app : GetVersionedFilename "app.js" "abc" = "app.abc.js".
Proof. reflexivity. Qed.
Example versioned_dir : GetVersionedFilename "public/css/site.css" "0f" = "public/css/site.0f.css".
Proof. reflexivity. Qed.
Example versioned_twice : GetVersionedFilename "a.js.js" "v" = "a.v.js.js".
Proof. reflexivity. Qed.
Example versioned_noext : GetVersionedFilename "Makefile" "v" = ".vMakefile".
Proof. reflexivity. Qed.
Example split_empty : strings.SplitComma "" = [""].
Proof. reflexivity. Qed.
Example split_two : strings.SplitComma "a,b*.js," = ["a"; "b*.js"; ""].
Proof. reflexivity. Qed.

(** * Properties *)

(** ** Strings *)

#[local] Arguments String.append !_ _ / : simpl nomatch.

Lemma append_empty_r (s : string) : s +:+ "" = s.
Proof. induction s as [|c s IH]; simpl; [done | by f_equal]. Qed.

Lemma append_assoc (a b c : string) : (a +:+ b) +:+ c = a +:+ (b +:+ c).
Proof. induction a as [|x a IH]; simpl; [done | by f_equal]. Qed.

Lemma length_append (a b : string) :
  String.length (a +:+ b) = String.length a + String.length b.
Proof. induction a as [|x a IH]; simpl; [done | by f_equal]. Qed.

Lemma take_append_length (a b : string) : strings.take (String.length a) (a +:+ b) = a.
Proof. induction a as [|x a IH]; simpl; [by destruct b | by f_equal]. Qed.

Lemma drop_append_length (a b : string) : strings.drop (String.length a) (a +:+ b) = b.
Proof. induction a as [|x a IH]; simpl; done. Qed.

Lemma drop_length (s : string) : strings.drop (String.length s) s = "".
Proof. induction s as [|x s IH]; simpl; done. Qed.

Lemma HasPrefix_empty (s : string) : strings.HasPrefix s "" = true.
Proof. by destruct s. Qed.



(** Where the first occurrence of [old] is known, one replacement splices
    [new] in there. *)
Lemma Replace1_at (pre old post new : string) :
  old ≠ new →
  strings.Index (pre +:+ old +:+ post) old = Some (String.length pre) →
  strings.Replace1 (pre +:+ old +:+ post) old new = pre +:+ new +:+ post.
Proof.
  intros Hne Hidx. unfold strings.Replace1.
  destruct (decide (old = new)); [done|].
  rewrite Hidx, take_append_length.
  rewrite <- length_append, <- (append_assoc pre old post), drop_append_length. done.
Qed.

(** When the extension occurs in the filename only as its suffix, the
    version is spliced in right before it. *)
Lemma GetVersionedFilename_suffix (stem version : string) (filename : string) :
  filename = stem +:+ filepath.Ext filename →
  strings.Index filename (filepath.Ext filename) = Some (String.length stem) →
  GetVersionedFilename filename version
  = stem +:+ "." +:+ version +:+ filepath.Ext filename.
Proof.
  intros Hsplit Hidx. unfold GetVersionedFilename.
  set (ext := filepath.Ext filename) in *.
  assert (Hne : ext ≠ "." +:+ version +:+ ext).
  { intros E. apply (f_equal String.length) in E.
    rewrite !length_append in E. simpl in E. lia. }
  rewrite Hsplit at 1. rewrite <- (append_empty_r ext) at 1.
  rewrite Replace1_at; [by rewrite append_empty_r | done |].
  by rewrite append_empty_r, <- Hsplit.
Qed.

(** ** Traces *)

Lemma uploads_app (t1 t2 : list event) : uploads (t1 ++ t2) = uploads t1 ++ uploads t2.
Proof. apply omap_app. Qed.

Lemma heads_app (t1 t2 : list event) : heads (t1 ++ t2) = heads t1 ++ heads t2.
Proof. apply omap_app. Qed.

Lemma writes_app (t1 t2 : list event) : writes (t1 ++ t2) = writes t1 ++ writes t2.
Proof. apply omap_app. Qed.

Lemma outcomes_app (t1 t2 : list event) : outcomes (t1 ++ t2) = outcomes t1 ++ outcomes t2.
Proof. apply omap_app. Qed.

Section Orchestrator.
Context `{!GoLib} {R : Type} `{!S3API R}.
Implicit Types (fs : gmap string node) (svc : R) (m : gmap string string).
Implicit Types (bucket directory filename key : string) (filenames : list string).

Lemma outcomes_outcomeLine (shouldUpload : bool) filename :
  outcomes [outcomeLine shouldUpload filename]
  = [(outcomeWord (negb shouldUpload), filename)].
Proof. by destruct shouldUpload. Qed.

(** *** One file *)

Lemma processFile_no_key fs bucket directory dryRun svc filename :
  objectKey fs directory filename = None →
  ∃ err, processFile fs bucket directory dryRun svc filename = mkStep (inr err) svc [].
Proof.
  unfold objectKey, processFile.
  destruct (os.Open fs filename) as [file|err]; [|by eauto].
  destruct (uploadFilenameOf filename file) as [[u file']|err]; [done | by eauto].
Qed.

Lemma processFile_ok_key fs bucket directory dryRun svc filename url :
  step_res (processFile fs bucket directory dryRun svc filename) = inl url →
  ∃ key, objectKey fs directory filename = Some key ∧ url = GetFileURL bucket key.
Proof.
  unfold objectKey, processFile.
  destruct (os.Open fs filename) as [file|err]; [|done].
  destruct (uploadFilenameOf filename file) as [[u file']|err]; [|done].
  intros Hres. eexists; split; [done|].
  destruct (negb _ && negb dryRun).
  - destruct (UploadFile _ _ _ _) as [[svc' [e|]] evs]; simpl in Hres; congruence.
  - simpl in Hres. congruence.
Qed.

(** A key the oracle reports present is skipped: no request but the HEAD. *)
Lemma processFile_skip fs bucket directory dryRun svc filename key :
  objectKey fs directory filename = Some key →
  HeadObject svc bucket key = None →
  processFile fs bucket directory dryRun svc filename
  = mkStep (inl (GetFileURL bucket key)) svc
           [EvHead bucket key; outcomeLine false filename].
Proof.
  unfold objectKey, processFile.
  destruct (os.Open fs filename) as [file|err]; [|done].
  destruct (uploadFilenameOf filename file) as [[u file']|err]; [|done].
  intros [= <-] Hhead. unfold HasPreviousUpload. by rewrite Hhead.
Qed.

(** In a dry run nothing but the HEAD is sent, whatever the oracle says. *)
Lemma processFile_dry fs bucket directory svc filename key :
  objectKey fs directory filename = Some key →
  processFile fs bucket directory true svc filename
  = mkStep (inl (GetFileURL bucket key)) svc
           [EvHead bucket key;
            outcomeLine (negb (HasPreviousUpload svc bucket key)) filename].
Proof.
  unfold objectKey, processFile.
  destruct (os.Open fs filename) as [file|err]; [|done].
  destruct (uploadFilenameOf filename file) as [[u file']|err]; [|done].
  intros [= <-]. by rewrite andb_false_r.
Qed.

Lemma processFile_dry_frame fs bucket directory svc filename :
  let st := processFile fs bucket directory true svc filename in
  step_remote st = svc ∧ uploads (step_trace st) = [].
Proof.
  intros st. subst st.
  destruct (objectKey fs directory filename) as [key|] eqn:Hkey.
  - rewrite (processFile_dry _ _ _ _ _ _ Hkey). simpl.
    by destruct (HasPreviousUpload svc bucket key).
  - destruct (processFile_no_key fs bucket directory true svc filename Hkey)
      as [err ->]. done.
Qed.

(** *** The loop *)

Lemma record_key fs bucket directory m filename key :
  objectKey fs directory filename = Some key →
  record fs bucket directory m filename = <[filename := GetFileURL bucket key]> m.
Proof. intros Hkey. unfold record, resolvedURL. by rewrite Hkey. Qed.

Lemma lookup_foldl_record fs bucket directory filenames m f :
  Forall (λ x, is_Some (objectKey fs directory x)) filenames →
  foldl (record fs bucket directory) m filenames !! f
  = if decide (f ∈ filenames) then resolvedURL fs bucket directory f else m !! f.
Proof.
  intros Hall. revert m. induction Hall as [|x rest [key Hkey] _ IH]; intros m; simpl.
  - done.
  - rewrite IH, (record_key _ _ _ _ _ _ Hkey).
    destruct (decide (f ∈ rest)) as [Hin|Hnin].
    + rewrite decide_True; [done | by right].
    + destruct (decide (f = x)) as [->|Hne].
      * rewrite decide_True by left. rewrite lookup_insert_eq.
        unfold resolvedURL. by rewrite Hkey.
      * rewrite decide_False by (rewrite elem_of_cons; tauto).
        by rewrite lookup_insert_ne.
Qed.

Lemma uploadLoop_success fs bucket directory dryRun filenames svc m :
  run_err (uploadLoop fs bucket directory dryRun filenames svc m) = None →
  Forall (λ x, is_Some (objectKey fs directory x)) filenames
  ∧ run_manifest (uploadLoop fs bucket directory dryRun filenames svc m)
    = foldl (record fs bucket directory) m filenames.
Proof.
  revert svc m. induction filenames as [|x rest IH]; intros svc m; simpl.
  - done.
  - destruct (step_res (processFile fs bucket directory dryRun svc x))
      as [url|err] eqn:Hres; simpl; [|done].
    intros Herr. apply processFile_ok_key in Hres as (key & Hkey & ->).
    destruct (IH _ _ Herr) as [Hall ->]. split; [by constructor; eauto|].
    by rewrite (record_key _ _ _ _ _ _ Hkey).
Qed.

Lemma uploadLoop_all_present fs bucket directory dryRun filenames svc m :
  Forall (λ x, is_Some (objectKey fs directory x)) filenames →
  (∀ x key, x ∈ filenames → objectKey fs directory x = Some key →
            HeadObject svc bucket key = None) →
  let run := uploadLoop fs bucket directory dryRun filenames svc m in
  run_err run = None
  ∧ run_manifest run = foldl (record fs bucket directory) m filenames
  ∧ run_remote run = svc
  ∧ uploads (run_trace run) = []
  ∧ outcomes (run_trace run) = (λ x, ("Skipped", x)) <$> filenames.
Proof.
  intros Hall. revert m.
  induction Hall as [|x rest [key Hkey] _ IH]; intros m Hhead; simpl.
  - done.
  - rewrite (processFile_skip _ _ _ _ _ _ _ Hkey) by (eapply Hhead; [left|done]).
    simpl. destruct (IH (<[x:=GetFileURL bucket key]> m)) as (-> & -> & -> & Hup & Hout).
    { intros y k Hy. apply Hhead. by right. }
    repeat split; try done.
    + by rewrite (record_key _ _ _ _ _ _ Hkey).
    + by rewrite Hout.
Qed.

Lemma uploadLoop_dry_frame fs bucket directory filenames svc m :
  let run := uploadLoop fs bucket directory true filenames svc m in
  run_remote run = svc ∧ uploads (run_trace run) = [].
Proof.
  revert svc m. induction filenames as [|x rest IH]; intros svc m; simpl; [done|].
  destruct (processFile_dry_frame fs bucket directory svc x) as [Hsvc Hup].
  destruct (step_res _) as [url|err]; simpl; [|done].
  rewrite Hsvc, uploads_app, Hup. apply IH.
Qed.

Lemma uploadLoop_dry_total fs bucket directory filenames svc m :
  Forall (λ x, is_Some (objectKey fs directory x)) filenames →
  let run := uploadLoop fs bucket directory true filenames svc m in
  let keyOf x := default "" (objectKey fs directory x) in
  run_err run = None
  ∧ heads (run_trace run) = (λ x, (bucket, keyOf x)) <$> filenames
  ∧ outcomes (run_trace run)
    = (λ x, (outcomeWord (HasPreviousUpload svc bucket (keyOf x)), x)) <$> filenames.
Proof.
  intros Hall. revert m.
  induction Hall as [|x rest [key Hkey] _ IH]; intros m; simpl; [done|].
  rewrite (processFile_dry _ _ _ _ _ _ Hkey). simpl.
  destruct (IH (<[x:=GetFileURL bucket key]> m)) as (-> & -> & ->).
  rewrite Hkey. simpl.
  by destruct (HasPreviousUpload svc bucket key).
Qed.

End Orchestrator.

(** ** The claims *)

Section Claims.
Context `{!GoLib} {R : Type} `{!S3API R}.
Implicit Types (fs : gmap string node) (svc : R) (m : gmap string string).
Implicit Types (bucket directory filename key : string) (filenames : list string).

(** *** Fingerprinting and the upload share one handle *)

Lemma Open_regular fs filename (n : node) :
  filename ≠ "" → fs !! filename = Some n →
  os.Open fs filename = inl (os.mkFile filename n 0).
Proof.
  intros Hne Hfs. unfold os.Open. rewrite decide_False by done. by rewrite Hfs.
Qed.

(** Fingerprinting reads the whole content and leaves the handle at its end. *)
Lemma GetFileMd5_regular filename (data : list byte) :
  GetFileMd5 (os.mkFile filename (Regular data) 0)
  = (hex.EncodeToString (take 16 (md5_Sum data)), None,
     os.mkFile filename (Regular data) (length data)).
Proof. unfold GetFileMd5, io.ReadToEOF. simpl. done. Qed.

Lemma ReadToEOF_at_end filename (data : list byte) :
  io.ReadToEOF (os.mkFile filename (Regular data) (length data))
  = (inl [], os.mkFile filename (Regular data) (length data)).
Proof.
  unfold io.ReadToEOF. simpl. rewrite drop_all. f_equal. f_equal. lia.
Qed.

(** A file that is not versioned is uploaded from a fresh handle: the
    request carries its whole content. *)
Lemma unversioned_upload_sends_content fs svc bucket directory filename data :
  filename ≠ "" →
  fs !! filename = Some (Regular data) →
  versionable (filepath.Ext filename) = false →
  HeadObject svc bucket (path_Join [directory; filename]) ≠ None →
  put_Body <$> uploads (run_trace
     (VersionAndUploadFiles fs svc bucket directory [filename] false)) = [data].
Proof.
  intros Hne Hfs Hext Hhead.
  unfold VersionAndUploadFiles, uploadLoop, processFile, uploadFilenameOf.
  rewrite (Open_regular _ _ _ Hne Hfs), Hext.
  unfold HasPreviousUpload.
  destruct (HeadObject svc bucket _) as [e|]; [|done]. simpl.
  unfold UploadFile, uploader_Upload, io.ReadToEOF. simpl.
  destruct (PutObject svc _) as [svc' [err|]]; simpl; done.
Qed.

(** C1 (code defect). A versioned (.js/.css) regular file that is not yet
    in the bucket is sent with an empty body, whatever its content: the
    fingerprint was computed by reading the handle to its end, and the same
    handle, not rewound, is the body of the upload. *)
Theorem C1_versioned_upload_sends_no_bytes fs svc bucket directory filename data :
  filename ≠ "" →
  fs !! filename = Some (Regular data) →
  versionable (filepath.Ext filename) = true →
  HeadObject svc bucket
    (path_Join [directory;
                GetVersionedFilename filename
                  (hex.EncodeToString (take 16 (md5_Sum data)))]) ≠ None →
  put_Body <$> uploads (run_trace
     (VersionAndUploadFiles fs svc bucket directory [filename] false)) = [[]].
Proof.
  intros Hne Hfs Hext Hhead.
  unfold VersionAndUploadFiles, uploadLoop, processFile, uploadFilenameOf.
  rewrite (Open_regular _ _ _ Hne Hfs), Hext, GetFileMd5_regular.
  unfold HasPreviousUpload.
  destruct (HeadObject svc bucket _) as [e|]; [|done]. simpl.
  unfold UploadFile, uploader_Upload. cbn [Body Bucket Key ContentType CacheControl Expires].
  rewrite ReadToEOF_at_end.
  destruct (PutObject svc _) as [svc' [err|]]; simpl; done.
Qed.

(** *** Versioned names *)

(** A file whose extension is not versioned keeps its name as upload name. *)
Lemma uploadFilenameOf_unversioned filename (file : os.File) :
  versionable (filepath.Ext filename) = false →
  uploadFilenameOf filename file = inl (filename, file).
Proof. intros Hext. unfold uploadFilenameOf. by rewrite Hext. Qed.

(** C2 (code defect). The version goes before the first occurrence of the
    extension's text in the filename, not before the final extension:
    [data.json.js] becomes [data.abc.json.js], and in [min.js/app.js] it is
    the directory that is renamed. *)
Theorem C2_version_spliced_at_first_occurrence :
  filepath.Ext "data.json.js" = ".js"
  ∧ GetVersionedFilename "data.json.js" "abc" = "data.abc.json.js"
  ∧ filepath.Ext "min.js/app.js" = ".js"
  ∧ GetVersionedFilename "min.js/app.js" "abc" = "min.abc.js/app.js".
Proof. repeat split; reflexivity. Qed.


(** *** The existence check *)

(** C4. The existence check answers true exactly when the HEAD request
    succeeds; an error of any kind makes it answer false, and its result is
    a boolean, so no error reaches the caller: a file whose HEAD request
    failed is handled as one that is absent (here in a dry run, where
    nothing else can fail). *)
Theorem C4_head_errors_mean_absent svc bucket key :
  (HasPreviousUpload svc bucket key = true ↔ HeadObject svc bucket key = None)
  ∧ (∀ err, HeadObject svc bucket key = Some err →
            HasPreviousUpload svc bucket key = false)
  ∧ (∀ err fs directory filename,
       HeadObject svc bucket key = Some err →
       objectKey fs directory filename = Some key →
       processFile fs bucket directory true svc filename
       = mkStep (inl (GetFileURL bucket key)) svc
                [EvHead bucket key; outcomeLine true filename]).
Proof.
  split; [|split].
  - unfold HasPreviousUpload. by destruct (HeadObject svc bucket key).
  - unfold HasPreviousUpload. by intros err ->.
  - intros err fs directory filename Hhead Hkey.
    rewrite (processFile_dry _ _ _ _ _ _ Hkey).
    unfold HasPreviousUpload. by rewrite Hhead.
Qed.

(** *** The formatter *)

(** C8. A format selector other than [json] and [csv] gives an empty
    result and no error, for every manifest. *)
Theorem C8_unknown_format_is_empty m (format : string) :
  format ≠ "json" → format ≠ "csv" →
  FormatManifest m format = ([], None).
Proof.
  intros Hj Hc. unfold FormatManifest.
  rewrite decide_False by done. by rewrite decide_False.
Qed.

(** *** The loop never writes files *)

Lemma processFile_writes fs bucket directory dryRun svc filename :
  writes (step_trace (processFile fs bucket directory dryRun svc filename)) = [].
Proof.
  unfold processFile.
  destruct (os.Open fs filename) as [file|err]; [|done].
  destruct (uploadFilenameOf filename file) as [[u file']|err]; [|done].
  destruct (negb _ && negb dryRun) eqn:Hup.
  - unfold UploadFile, uploader_Upload.
    destruct (io.ReadToEOF _) as [[data|err] f]; simpl; [|done].
    destruct (PutObject svc _) as [svc' [err|]]; simpl; [done|].
    apply andb_true_iff in Hup as [-> _]. done.
  - simpl. by destruct (negb _).
Qed.

Lemma uploadLoop_writes fs bucket directory dryRun filenames svc m :
  writes (run_trace (uploadLoop fs bucket directory dryRun filenames svc m)) = [].
Proof.
  revert svc m. induction filenames as [|x rest IH]; intros svc m; simpl; [done|].
  pose proof (processFile_writes fs bucket directory dryRun svc x) as Hw.
  destruct (step_res _) as [url|err]; simpl; [|done].
  by rewrite writes_app, Hw, IH.
Qed.

(** *** Skipping what is already there *)

(** C3. A file whose composed key the existence check reports present is
    skipped: its URL is recorded, the word printed is Skipped and no upload
    is sent.  So when a run has succeeded and the check then answers true
    for every composed key, a second run over the same files returns the
    same manifest, sends no upload and prints Skipped for every file. *)
Theorem C3_present_keys_are_skipped fs svc bucket directory filenames dryRun dryRun' :
  (∀ filename key,
     objectKey fs directory filename = Some key →
     HeadObject svc bucket key = None →
     let st := processFile fs bucket directory dryRun svc filename in
     step_res st = inl (GetFileURL bucket key)
     ∧ uploads (step_trace st) = []
     ∧ outcomes (step_trace st) = [("Skipped", filename)])
  ∧ (let run1 := VersionAndUploadFiles fs svc bucket directory filenames dryRun in
     let run2 := VersionAndUploadFiles fs (run_remote run1) bucket directory
                                       filenames dryRun' in
     run_err run1 = None →
     (∀ filename key, filename ∈ filenames →
        objectKey fs directory filename = Some key →
        HeadObject (run_remote run1) bucket key = None) →
     run_err run2 = None
     ∧ run_manifest run2 = run_manifest run1
     ∧ uploads (run_trace run2) = []
     ∧ outcomes (run_trace run2) = (λ x, ("Skipped", x)) <$> filenames
     ∧ run_remote run2 = run_remote run1).
Proof.
  split.
  - intros filename key Hkey Hhead st. subst st.
    by rewrite (processFile_skip _ _ _ _ _ _ _ Hkey Hhead).
  - intros run1 run2 Herr Hpresent. subst run1 run2.
    unfold VersionAndUploadFiles in *. simpl in *.
    apply uploadLoop_success in Herr as [Hall Hm1].
    destruct (uploadLoop_all_present fs bucket directory dryRun' filenames
                _ ∅ Hall Hpresent) as (? & Hm2 & ? & ? & ?).
    repeat split; try done. by rewrite Hm1, Hm2.
Qed.

(** *** The manifest *)

(** C5. After a successful run the manifest maps exactly the input
    filenames, each to the URL resolved for it: one entry per filename,
    whether the file was uploaded or skipped and whether or not the run was
    a dry run. *)
Theorem C5_manifest_one_entry_per_file fs svc bucket directory filenames dryRun :
  let run := VersionAndUploadFiles fs svc bucket directory filenames dryRun in
  run_err run = None →
  (∀ f, run_manifest run !! f
        = if decide (f ∈ filenames) then resolvedURL fs bucket directory f else None)
  ∧ (∀ f, f ∈ filenames → is_Some (run_manifest run !! f))
  ∧ dom (run_manifest run) = list_to_set filenames
  ∧ (NoDup filenames → size (run_manifest run) = length filenames).
Proof.
  intros run Herr. subst run. unfold VersionAndUploadFiles in *. simpl in *.
  apply uploadLoop_success in Herr as [Hall ->].
  assert (Hlook : ∀ f, foldl (record fs bucket directory) ∅ filenames !! f
      = if decide (f ∈ filenames) then resolvedURL fs bucket directory f else None).
  { intros f. by rewrite lookup_foldl_record, lookup_empty. }
  assert (Hin : ∀ f, f ∈ filenames →
      is_Some (foldl (record fs bucket directory) ∅ filenames !! f)).
  { intros f Hf. rewrite Hlook, decide_True by done.
    rewrite Forall_forall in Hall. destruct (Hall f Hf) as [key Hkey].
    unfold resolvedURL. rewrite Hkey. by eexists. }
  assert (Hdom : dom (foldl (record fs bucket directory) ∅ filenames)
                 = list_to_set filenames).
  { apply set_eq. intros f. rewrite elem_of_dom, elem_of_list_to_set. split.
    - rewrite Hlook. destruct (decide (f ∈ filenames)); [done|]. by intros [? ?].
    - apply Hin. }
  repeat split; try done.
  intros Hnodup. by rewrite <- size_dom, Hdom, size_list_to_set.
Qed.

(** *** Dry runs *)

Lemma main_dry_frame flags env fs svc :
  dryRun flags = true →
  let p := main flags env fs svc in
  proc_fs p = fs ∧ proc_remote p = svc
  ∧ uploads (proc_trace p) = [] ∧ writes (proc_trace p) = [].
Proof.
  intros Hdry p. subst p. unfold main, fatal. rewrite Hdry.
  destruct (printVersion flags); [done|].
  destruct (decide _); [done|].
  destruct (GetFilesFromGlobsList fs (filesArg flags)) as [files [err|]]; [done|].
  destruct (SetupS3Uploader env); [done|].
  unfold VersionAndUploadFiles. simpl.
  destruct (uploadLoop_dry_frame fs (s3Bucket flags) (directory flags) files svc ∅)
    as [Hsvc Hup].
  pose proof (uploadLoop_writes fs (s3Bucket flags) (directory flags) true files svc ∅)
    as Hw.
  destruct (run_err _); simpl.
  - by rewrite uploads_app, writes_app, Hup, Hw.
  - destruct (FormatManifest _ _) as [output [err|]]; simpl;
      by rewrite !uploads_app, !writes_app, Hup, Hw.
Qed.

(** C9. In a dry run no upload is sent and the store is left as it was,
    for every file list; the process writes no file and leaves filesystem
    and store unchanged.  The existence check is still made, and an outcome
    line still printed, for every file of a list of readable files, in
    order. *)
Theorem C9_dry_run_only_checks fs svc bucket directory filenames flags env :
  let run := VersionAndUploadFiles fs svc bucket directory filenames true in
  let keyOf x := default "" (objectKey fs directory x) in
  (uploads (run_trace run) = [] ∧ run_remote run = svc)
  ∧ (dryRun flags = true →
     let p := main flags env fs svc in
     proc_fs p = fs ∧ proc_remote p = svc
     ∧ uploads (proc_trace p) = [] ∧ writes (proc_trace p) = [])
  ∧ (Forall (λ x, is_Some (objectKey fs directory x)) filenames →
     run_err run = None
     ∧ heads (run_trace run) = (λ x, (bucket, keyOf x)) <$> filenames
     ∧ outcomes (run_trace run)
       = (λ x, (outcomeWord (HasPreviousUpload svc bucket (keyOf x)), x))
           <$> filenames).
Proof.
  intros run keyOf. subst run keyOf. unfold VersionAndUploadFiles. simpl.
  split; [|split].
  - destruct (uploadLoop_dry_frame fs bucket directory filenames svc ∅). done.
  - apply main_dry_frame.
  - intros Hall. by apply uploadLoop_dry_total.
Qed.

(** *** No files *)



(** *** The upload directory *)

Lemma fatal_exit fs svc (before : list event) (format : string) (a : list error) :
  exit_status (fatal fs svc before format a) = 1.
Proof. done. Qed.


End Claims.

(** ** The claims on the example build directory *)

Section Examples.
#[local] Existing Instance exampleLib.
#[local] Existing Instance memS3.

Lemma C1_witness :
  put_Body <$> uploads (run_trace
     (VersionAndUploadFiles exampleFs (∅ : store) defaultS3Bucket "v1" ["app.js"] false))
  = [[]].
Proof.
  apply (C1_versioned_upload_sends_no_bytes exampleFs (∅ : store) defaultS3Bucket
           "v1" "app.js" [x61; x62; x63]).
  - discriminate.
  - vm_compute. reflexivity.
  - reflexivity.
  - vm_compute. discriminate.
Defined.

Lemma C3_witness :
  let run1 := VersionAndUploadFiles exampleFs (∅ : store) defaultS3Bucket "v1"
                                    exampleFiles false in
  let run2 := VersionAndUploadFiles exampleFs (run_remote run1) defaultS3Bucket "v1"
                                    exampleFiles false in
  run_err run2 = None
  ∧ run_manifest run2 = run_manifest run1
  ∧ uploads (run_trace run2) = []
  ∧ outcomes (run_trace run2) = (λ x, ("Skipped", x)) <$> exampleFiles
  ∧ run_remote run2 = run_remote run1.
Proof.
  apply (proj2 (C3_present_keys_are_skipped exampleFs (∅ : store) defaultS3Bucket
                  "v1" exampleFiles false false)).
  - vm_compute. reflexivity.
  - intros filename key Hin Hkey.
    unfold exampleFiles in Hin. rewrite !elem_of_cons, elem_of_nil in Hin.
    destruct Hin as [->|[->|[->|[]]]]; vm_compute in Hkey;
      injection Hkey as <-; vm_compute; reflexivity.
Defined.

Lemma C4_witness :
  HasPreviousUpload (∅ : store) defaultS3Bucket "v1/logo.png" = false.
Proof.
  apply (proj1 (proj2 (C4_head_errors_mean_absent (∅ : store) defaultS3Bucket
                         "v1/logo.png")) (AwsError "NotFound")).
  vm_compute. reflexivity.
Defined.

Lemma C5_witness :
  let run := VersionAndUploadFiles exampleFs (∅ : store) defaultS3Bucket "v1"
                                   exampleFiles false in
  dom (run_manifest run) = list_to_set exampleFiles
  ∧ size (run_manifest run) = 3
  ∧ run_manifest run !! "logo.png" = Some "https://static.buffer.com/v1/logo.png".
Proof.
  intros run.
  destruct (C5_manifest_one_entry_per_file exampleFs (∅ : store) defaultS3Bucket "v1"
              exampleFiles false) as (Hlook & _ & Hdom & Hsize).
  { vm_compute. reflexivity. }
  split; [exact Hdom|]. split.
  - apply Hsize. apply (bool_decide_unpack _). vm_compute. reflexivity.
  - subst run. rewrite Hlook. vm_compute. reflexivity.
Defined.




Lemma C8_witness :
  FormatManifest {[ "app.js" := "https://static.buffer.com/v1/app.js" ]} "xml"
  = ([], None).
Proof. apply C8_unknown_format_is_empty; discriminate. Defined.

Lemma C9_witness :
  let run := VersionAndUploadFiles exampleFs (∅ : store) defaultS3Bucket "v1"
                                   exampleFiles true in
  let p := main dryRunFlags exampleEnv exampleFs (∅ : store) in
  uploads (run_trace run) = []
  ∧ length (heads (run_trace run)) = 3
  ∧ outcomes (run_trace run) = (λ x, ("Uploaded", x)) <$> exampleFiles
  ∧ proc_fs p = exampleFs ∧ writes (proc_trace p) = [].
Proof.
  intros run p.
  destruct (C9_dry_run_only_checks exampleFs (∅ : store) defaultS3Bucket "v1"
              exampleFiles dryRunFlags exampleEnv) as ([Hup _] & Hmain & Hall).
  destruct (Hmain eq_refl) as (Hfs & _ & _ & Hw).
  destruct Hall as (_ & Hheads & Hout).
  { unfold exampleFiles. repeat constructor; vm_compute; eexists; reflexivity. }
  subst run p. rewrite Hheads, Hout. repeat split; try assumption.
Defined.


End Examples.

(** * Further properties *)

(** ** Where the version goes *)

Lemma take_drop (i : nat) (s : string) : strings.take i s +:+ strings.drop i s = s.
Proof.
  revert s. induction i as [|i IH]; intros [|c s]; simpl; try done. by f_equal.
Qed.

Lemma HasPrefix_app (old rest : string) : strings.HasPrefix (old +:+ rest) old = true.
Proof.
  induction old as [|c old IH]; simpl; [by destruct rest|].
  by rewrite Ascii.eqb_refl.
Qed.

Lemma HasPrefix_split (s old : string) :
  strings.HasPrefix s old = true → s = old +:+ strings.drop (String.length old) s.
Proof.
  revert s. induction old as [|c old IH]; intros s; simpl; [by destruct s|].
  destruct s as [|x s]; [done|]. simpl.
  intros [Hc Hp]%andb_true_iff. apply Ascii.eqb_eq in Hc as ->.
  f_equal. by apply IH.
Qed.

Lemma Index_cons (c : ascii) (s old : string) :
  strings.Index (String c s) old
  = if strings.HasPrefix (String c s) old then Some 0 else S <$> strings.Index s old.
Proof. reflexivity. Qed.

(** [strings.Index] finds an occurrence, and finds one whenever there is one. *)
Lemma Index_Some (s old : string) (j : nat) :
  strings.Index s old = Some j →
  s = strings.take j s +:+ old +:+ strings.drop (j + String.length old) s
  ∧ j + String.length old ≤ String.length s.
Proof.
  revert j. induction s as [|c s IH]; intros j.
  - destruct old; simpl; [|done]. intros [= <-]. simpl. split; [done | lia].
  - rewrite Index_cons. destruct (strings.HasPrefix (String c s) old) eqn:Hp.
    + intros [= <-]. simpl. split; [by apply HasPrefix_split|].
      apply HasPrefix_split in Hp. apply (f_equal String.length) in Hp.
      rewrite length_append in Hp. simpl in Hp. lia.
    + destruct (strings.Index s old) as [j'|] eqn:Hidx; [|done].
      intros [= <-]. destruct (IH j' eq_refl) as [Hs Hlen]. simpl.
      split; [by f_equal | lia].
Qed.

Lemma Index_occurrence (pre old post : string) :
  is_Some (strings.Index (pre +:+ old +:+ post) old).
Proof.
  induction pre as [|c pre IH]; cbn [String.append].
  - assert (Hp := HasPrefix_app old post).
    destruct (old +:+ post) as [|x r].
    + destruct old; [by eexists | done].
    + rewrite Index_cons, Hp. by eexists.
  - rewrite Index_cons. destruct (strings.HasPrefix _ old); [by eexists|].
    destruct IH as [j ->]. by eexists.
Qed.

Lemma length_take (i : nat) (s : string) :
  i ≤ String.length s → String.length (strings.take i s) = i.
Proof.
  revert s. induction i as [|i IH]; intros [|c s]; simpl; try done; try lia.
  intros Hle. f_equal. apply IH. lia.
Qed.

(** The extension is a suffix of the filename. *)
Lemma Ext_from_suffix (path : string) (n : nat) :
  ∃ stem, path = stem +:+ filepath.Ext_from path n.
Proof.
  induction n as [|i IH]; simpl.
  - exists path. by rewrite append_empty_r.
  - destruct (String.get i path) as [c|]; [|exists path; by rewrite append_empty_r].
    destruct (filepath.IsPathSeparator c); [exists path; by rewrite append_empty_r|].
    destruct (Ascii.eqb c "."); [|done].
    exists (strings.take i path). by rewrite take_drop.
Qed.

Lemma Ext_suffix (filename : string) :
  ∃ stem, filename = stem +:+ filepath.Ext filename.
Proof. apply Ext_from_suffix. Qed.

Lemma Index_Ext (filename : string) :
  is_Some (strings.Index filename (filepath.Ext filename)).
Proof.
  destruct (Ext_suffix filename) as [stem Hstem].
  rewrite Hstem at 1. rewrite <- (append_empty_r (filepath.Ext filename)) at 1.
  apply Index_occurrence.
Qed.

Lemma Ext_not_versioned (ext version : string) : ext ≠ "." +:+ version +:+ ext.
Proof.
  intros E. apply (f_equal String.length) in E.
  rewrite !length_append in E. simpl in E. lia.
Qed.

Lemma GetVersionedFilename_at (filename version : string) (j : nat) :
  strings.Index filename (filepath.Ext filename) = Some j →
  GetVersionedFilename filename version
  = strings.take j filename +:+ ("." +:+ version +:+ filepath.Ext filename)
      +:+ strings.drop (j + String.length (filepath.Ext filename)) filename.
Proof.
  intros Hj. unfold GetVersionedFilename, strings.Replace1.
  rewrite decide_False by apply Ext_not_versioned. by rewrite Hj.
Qed.

(** X1. The versioner always splices a dot and the version in front of
    the first occurrence of the extension's text: the filename splits as
    [pre ++ ext ++ post], with no occurrence of [ext] starting before
    [post], and the result is [pre ++ "." ++ version ++ ext ++ post].  So
    the result is longer than the filename by the version and one dot. *)
Theorem GetVersionedFilename_splice (filename version : string) :
  ∃ pre post,
    filename = pre +:+ filepath.Ext filename +:+ post
    ∧ strings.Index filename (filepath.Ext filename) = Some (String.length pre)
    ∧ GetVersionedFilename filename version
      = pre +:+ ("." +:+ version +:+ filepath.Ext filename) +:+ post
    ∧ String.length (GetVersionedFilename filename version)
      = String.length filename + 1 + String.length version.
Proof.
  destruct (Index_Ext filename) as [j Hj].
  destruct (Index_Some _ _ _ Hj) as [Hsplit Hlen].
  exists (strings.take j filename),
         (strings.drop (j + String.length (filepath.Ext filename)) filename).
  rewrite length_take by lia.
  assert (Hres := GetVersionedFilename_at filename version j Hj).
  repeat split; try done.
  assert (Hl := f_equal String.length Hsplit).
  rewrite Hres. rewrite !length_append in *. simpl. lia.
Qed.

Lemma append_inv_tail (a b c : string) : a +:+ c = b +:+ c → a = b.
Proof.
  revert b. induction a as [|x a IH]; intros [|y b]; simpl; intros E; try done.
  - apply (f_equal String.length) in E. simpl in E. rewrite length_append in E. lia.
  - apply (f_equal String.length) in E. simpl in E. rewrite length_append in E. lia.
  - injection E as -> E. f_equal. by apply IH.
Qed.

Lemma GetVersionedFilename_inj (filename v1 v2 : string) :
  GetVersionedFilename filename v1 = GetVersionedFilename filename v2 → v1 = v2.
Proof.
  destruct (Index_Ext filename) as [j Hj].
  rewrite !(GetVersionedFilename_at _ _ j Hj).
  intros E. apply (inj (String.app _)) in E.
  rewrite !append_assoc in E. simpl in E. injection E as E.
  by apply append_inv_tail in E.
Qed.

(** X2. For one filename, different versions give different versioned
    names, and none of them is the filename itself. *)
Theorem GetVersionedFilename_version_inj (filename v1 v2 : string) :
  v1 ≠ v2 →
  GetVersionedFilename filename v1 ≠ GetVersionedFilename filename v2
  ∧ GetVersionedFilename filename v1 ≠ filename.
Proof.
  intros Hne. split.
  - intros E. by apply GetVersionedFilename_inj in E.
  - intros E. destruct (Index_Ext filename) as [j Hj].
    destruct (Index_Some _ _ _ Hj) as [Hsplit _].
    rewrite (GetVersionedFilename_at _ _ j Hj) in E.
    assert (Hl := f_equal String.length Hsplit).
    apply (f_equal String.length) in E.
    rewrite !length_append in E. rewrite !length_append in Hl. simpl in E. lia.
Qed.

(** ** Fingerprints *)

Lemma length_EncodeToString (src : list byte) :
  String.length (hex.EncodeToString src) = 2 * length src.
Proof. induction src as [|v src IH]; simpl; [done | rewrite IH; lia]. Qed.

Lemma hexDecode_byte (v : byte) (rest : string) :
  hexDecode (String (hex.digit (N.shiftr (Byte.to_N v) 4))
               (String (hex.digit (N.land (Byte.to_N v) 15)) rest))
  = (l ← hexDecode rest; Some (v :: l)).
Proof. destruct v; reflexivity. Qed.

Lemma hexDecode_EncodeToString (src : list byte) :
  hexDecode (hex.EncodeToString src) = Some src.
Proof.
  induction src as [|v src IH]; [done|].
  cbn [hex.EncodeToString]. rewrite hexDecode_byte, IH. done.
Qed.

Lemma EncodeToString_inj (a b : list byte) :
  hex.EncodeToString a = hex.EncodeToString b → a = b.
Proof.
  intros E. apply (f_equal hexDecode) in E.
  rewrite !hexDecode_EncodeToString in E. by injection E.
Qed.

Section Fingerprint.
Context `{!GoLib}.

(** X3. Fingerprinting a regular file reads from the handle's offset to
    the end and leaves the handle there: the checksum is that of the bytes
    not yet read, and fingerprinting the same handle again gives the
    checksum of the empty input. *)
Theorem GetFileMd5_drains (name : string) (data : list byte) (off : nat) :
  let file := os.mkFile name (Regular data) off in
  let file' := os.mkFile name (Regular data) (off `max` length data) in
  GetFileMd5 file
  = (hex.EncodeToString (take 16 (md5_Sum (drop off data))), None, file')
  ∧ GetFileMd5 file'
    = (hex.EncodeToString (take 16 (md5_Sum [])), None, file').
Proof.
  intros file file'. subst file file'. unfold GetFileMd5, io.ReadToEOF.
  cbn [os.f_node os.f_off os.f_name]. split; [done|].
  rewrite drop_ge by lia.
  by replace ((off `max` length data) `max` length data)
       with (off `max` length data) by lia.
Qed.

(** X4. When the digest has 16 bytes the fingerprint has 32 characters,
    and two contents get the same fingerprint only if they have the same
    digest: the hexadecimal encoding loses nothing. *)
Theorem GetFileMd5_fingerprint (n1 n2 : string) (d1 d2 : list byte) :
  length (md5_Sum d1) = 16 → length (md5_Sum d2) = 16 →
  let c1 := (GetFileMd5 (os.mkFile n1 (Regular d1) 0)).1.1 in
  let c2 := (GetFileMd5 (os.mkFile n2 (Regular d2) 0)).1.1 in
  String.length c1 = 32 ∧ (c1 = c2 ↔ md5_Sum d1 = md5_Sum d2).
Proof.
  intros H1 H2 c1 c2. subst c1 c2. unfold GetFileMd5, io.ReadToEOF.
  cbn [os.f_node os.f_off fst]. rewrite !drop_0.
  rewrite (take_ge (md5_Sum d1)), (take_ge (md5_Sum d2)) by lia. split.
  - rewrite length_EncodeToString. lia.
  - split; [apply EncodeToString_inj | by intros ->].
Qed.

End Fingerprint.

(** ** Expanding the glob list *)

Lemma SplitComma_nonempty (s : string) : strings.SplitComma s ≠ [].
Proof.
  destruct s as [|c s]; simpl; [done|].
  destruct (Ascii.eqb c ","); [done|]. by destruct (strings.SplitComma s).
Qed.

Lemma joinWith_cons (sep x y : string) (l : list string) :
  path.joinWith sep (x :: y :: l) = x +:+ sep +:+ path.joinWith sep (y :: l).
Proof. reflexivity. Qed.

(** X5. Splitting at commas loses nothing: joining the patterns with
    commas gives the argument back, and no pattern contains a comma. *)
Theorem SplitComma_join (s : string) :
  path.joinWith "," (strings.SplitComma s) = s
  ∧ Forall (λ p, occurs "," p = false) (strings.SplitComma s).
Proof.
  induction s as [|c s [IHj IHc]]; simpl; [by repeat constructor|].
  destruct (Ascii.eqb c ",") eqn:Hc.
  - apply Ascii.eqb_eq in Hc as ->. split; [|by constructor].
    destruct (strings.SplitComma s) as [|h t] eqn:Hs; [by apply SplitComma_nonempty in Hs|].
    by rewrite joinWith_cons, IHj.
  - destruct (strings.SplitComma s) as [|h t] eqn:Hs; [by apply SplitComma_nonempty in Hs|].
    split.
    + destruct t as [|y t]; [simpl in *; by rewrite IHj|].
      rewrite joinWith_cons in *. cbn [String.append]. by f_equal.
    + inversion_clear IHc. constructor; [|done]. simpl. by rewrite Hc.
Qed.

Section Globs.
Context `{!GoLib}.
Implicit Types (fs : gmap string node) (globs files : list string).

Lemma globLoop_ok fs globs files :
  Forall (λ p, (Glob fs p).2 = None) globs →
  globLoop fs globs files = (files ++ concat ((λ p, (Glob fs p).1) <$> globs), None).
Proof.
  intros Hall. revert files. induction Hall as [|p rest Hp _ IH]; intros files; simpl.
  - by rewrite app_nil_r.
  - destruct (Glob fs p) as [fileList [err|]]; [done|]. simpl.
    by rewrite IH, app_assoc.
Qed.

Lemma globLoop_stops fs (pre post : list string) (p : string) files (err : error) :
  Forall (λ q, (Glob fs q).2 = None) pre →
  (Glob fs p).2 = Some err →
  globLoop fs (pre ++ p :: post) files
  = (files ++ concat ((λ q, (Glob fs q).1) <$> pre), Some err).
Proof.
  intros Hall Hp. revert files. induction Hall as [|q rest Hq _ IH]; intros files; simpl.
  - destruct (Glob fs p) as [fileList [e|]]; simpl in *; [|done].
    injection Hp as ->. by rewrite app_nil_r.
  - destruct (Glob fs q) as [fileList [e|]]; [done|]. simpl.
    by rewrite IH, app_assoc.
Qed.

Lemma Glob_plain fs (p : string) :
  hasMeta p = false → Match_error p = None →
  Glob fs p = (if lstatOk fs p then [p] else [], None).
Proof.
  intros Hmeta Hmatch. unfold Glob, lstatOk. rewrite Hmatch, Hmeta. simpl.
  by destruct (os.Lstat fs p).
Qed.

(** X6. A list of plain names (no meta character, well formed) expands
    to the names that exist, in the order given and as often as given;
    names that do not exist, and empty elements, are dropped without an
    error. *)
Theorem GetFilesFromGlobsList_plain fs (globList : string) :
  Forall (λ p, hasMeta p = false ∧ Match_error p = None)
         (strings.SplitComma globList) →
  GetFilesFromGlobsList fs globList
  = (filter (λ p, lstatOk fs p) (strings.SplitComma globList), None).
Proof.
  intros Hall. unfold GetFilesFromGlobsList.
  rewrite globLoop_ok.
  - f_equal. simpl. induction Hall as [|p rest [Hm He] _ IH]; [done|].
    cbn [fmap list_fmap concat]. rewrite IH, (Glob_plain _ _ Hm He).
    rewrite filter_cons. by destruct (lstatOk fs p).
  - eapply Forall_impl; [done|]. intros p [Hm He]. by rewrite Glob_plain.
Qed.

(** X7. The first pattern that fails ends the expansion: the files of
    the patterns before it are returned with its error, and the patterns
    after it are not expanded. *)
Theorem GetFilesFromGlobsList_error fs (globList : string)
    (pre post : list string) (p : string) (err : error) :
  strings.SplitComma globList = pre ++ p :: post →
  Forall (λ q, (Glob fs q).2 = None) pre →
  (Glob fs p).2 = Some err →
  GetFilesFromGlobsList fs globList
  = (concat ((λ q, (Glob fs q).1) <$> pre), Some err).
Proof.
  intros Hsplit Hpre Hp. unfold GetFilesFromGlobsList.
  rewrite Hsplit. by rewrite (globLoop_stops _ _ _ _ _ _ Hpre Hp).
Qed.

End Globs.

(** ** What the loop sends *)

Section Requests.
Context `{!GoLib} {R : Type} `{!S3API R}.
Implicit Types (fs : gmap string node) (svc : R) (m : gmap string string).
Implicit Types (bucket directory filename key : string) (filenames : list string).

(** What [UploadFile] can do: fail before any request, or send one. *)
Lemma UploadFile_cases svc (file : os.File) key bucket :
  (∃ err, UploadFile svc file key bucket = (svc, Some err, []))
  ∨ (∃ data svc' err,
       PutObject svc (uploadRequest bucket key data) = (svc', err)
       ∧ UploadFile svc file key bucket
         = (svc', err, [EvPut (uploadRequest bucket key data)])).
Proof.
  unfold UploadFile, uploader_Upload.
  destruct (io.ReadToEOF _) as [[data|err] file'].
  - right. cbn [Bucket Key ContentType CacheControl Expires].
    fold (uploadRequest bucket key data).
    destruct (PutObject svc _) as [svc' err] eqn:Hput. by exists data, svc', err.
  - left. by eexists.
Qed.


Lemma processFile_stepOf fs bucket directory dryRun svc filename :
  stepOf fs bucket directory dryRun svc filename
         (processFile fs bucket directory dryRun svc filename).
Proof.
  unfold processFile.
  destruct (os.Open fs filename) as [file|err] eqn:Hopen.
  2:{ apply step_unreadable. unfold objectKey. by rewrite Hopen. }
  destruct (uploadFilenameOf filename file) as [[u file']|err] eqn:Hup.
  2:{ apply step_unreadable. unfold objectKey. by rewrite Hopen, Hup. }
  assert (Hkey : objectKey fs directory filename = Some (path_Join [directory; u])).
  { unfold objectKey. by rewrite Hopen, Hup. }
  set (key := path_Join [directory; u]) in *.
  destruct (HasPreviousUpload svc bucket key) eqn:Hhead; simpl.
  { by apply step_skipped. }
  destruct dryRun; simpl.
  { by apply step_planned. }
  destruct (UploadFile_cases svc file' key bucket)
    as [[err ->]|(data & svc' & [err|] & Hput & ->)].
  - by apply step_body_failed.
  - by eapply step_put_failed.
  - by eapply step_uploaded.
Qed.

Ltac step_cases svc x :=
  let st := fresh "st" in
  let Hst := fresh "Hst" in
  lazymatch goal with
  | |- context [processFile ?fs ?b ?d ?dry svc x] =>
      pose proof (processFile_stepOf fs b d dry svc x) as Hst;
      revert Hst; generalize (processFile fs b d dry svc x);
      intros st Hst; destruct Hst; simpl
  end.

Lemma uploadLoop_requests fs bucket directory dryRun filenames svc m :
  Forall (λ req, ∃ data, req = uploadRequest bucket (put_Key req) data
                         ∧ composedFrom fs directory filenames (put_Key req))
         (uploads (run_trace (uploadLoop fs bucket directory dryRun filenames svc m))).
Proof.
  revert svc m. induction filenames as [|x rest IH]; intros svc m; simpl; [done|].
  assert (Hrest : ∀ svc' m',
    Forall (λ req, ∃ data, req = uploadRequest bucket (put_Key req) data
                     ∧ composedFrom fs directory (x :: rest) (put_Key req))
      (uploads (run_trace (uploadLoop fs bucket directory dryRun rest svc' m')))).
  { intros svc' m'. eapply Forall_impl; [apply IH|].
    intros req (data & Hreq & f & Hf & Hk). exists data. split; [done|].
    exists f. split; [by right | done]. }
  assert (Hhere : ∀ key data, objectKey fs directory x = Some key →
    ∃ data', uploadRequest bucket key data
             = uploadRequest bucket (put_Key (uploadRequest bucket key data)) data'
             ∧ composedFrom fs directory (x :: rest)
                 (put_Key (uploadRequest bucket key data))).
  { intros key data Hk. exists data. split; [done|]. exists x. split; [by left | done]. }
  step_cases svc x; try done; try apply Hrest.
  - constructor; [by apply Hhere | done].
  - constructor; [by apply Hhere | apply Hrest].
Qed.

(** What one iteration adds to the trace. *)
Lemma stepOf_trace fs bucket directory dryRun svc filename (st : Step R) :
  stepOf fs bucket directory dryRun svc filename st →
  (∃ key, objectKey fs directory filename = Some key
          ∧ heads (step_trace st) = [(bucket, key)]
          ∧ (uploads (step_trace st) = []
             ∨ ∃ data, uploads (step_trace st) = [uploadRequest bucket key data]))
  ∨ (heads (step_trace st) = [] ∧ uploads (step_trace st) = []).
Proof.
  intros []; simpl.
  - by right.
  - left. exists key. repeat split; try done. by left.
  - left. exists key. repeat split; try done. by left.
  - left. exists key. repeat split; try done. by left.
  - left. exists key. repeat split; try done. right. by exists data.
  - left. exists key. repeat split; try done. right. by exists data.
Qed.

(** What a successful iteration adds to the trace. *)
Lemma stepOf_ok fs bucket directory dryRun svc filename (st : Step R) (url : string) :
  stepOf fs bucket directory dryRun svc filename st →
  step_res st = inl url →
  ∃ key word,
    objectKey fs directory filename = Some key
    ∧ url = GetFileURL bucket key
    ∧ heads (step_trace st) = [(bucket, key)]
    ∧ outcomes (step_trace st) = [(word, filename)]
    ∧ (dryRun = false →
       length (uploads (step_trace st))
       = length (filter (λ o, o.1 = "Uploaded") [(word, filename)])).
Proof.
  intros []; simpl; intros [= <-].
  - exists key, "Skipped". repeat split; done.
  - exists key, "Uploaded". repeat split; try done. congruence.
  - exists key, "Uploaded". repeat split; done.
Qed.

(** What a failed iteration adds to the trace. *)
Lemma stepOf_failed fs bucket directory dryRun svc filename (st : Step R) (err : error) :
  stepOf fs bucket directory dryRun svc filename st →
  step_res st = inr err →
  outcomes (step_trace st) = [] ∧ length (heads (step_trace st)) ≤ 1.
Proof. intros []; simpl; intros [=]; split; done || lia. Qed.

(** *** Invariants of the loop *)

Lemma uploadLoop_heads fs bucket directory dryRun filenames svc m :
  let t := run_trace (uploadLoop fs bucket directory dryRun filenames svc m) in
  ((λ req, (put_Bucket req, put_Key req)) <$> uploads t) `sublist_of` heads t
  ∧ length (heads t) ≤ length filenames
  ∧ Forall (λ h, h.1 = bucket ∧ composedFrom fs directory filenames h.2) (heads t).
Proof.
  revert svc m. induction filenames as [|x rest IH]; intros svc m; simpl.
  { split; [done|]. split; [done | constructor]. }
  pose proof (processFile_stepOf fs bucket directory dryRun svc x) as Hst.
  apply stepOf_trace in Hst.
  assert (Hweak : ∀ l : list (string * string),
    Forall (λ h, h.1 = bucket ∧ composedFrom fs directory rest h.2) l →
    Forall (λ h, h.1 = bucket ∧ composedFrom fs directory (x :: rest) h.2) l).
  { intros l Hl. eapply Forall_impl; [exact Hl|]. intros h [Hb (f & Hf & Hk)].
    split; [done|]. exists f. split; [by right | done]. }
  assert (Hx : ∀ key, objectKey fs directory x = Some key →
    Forall (λ h, h.1 = bucket ∧ composedFrom fs directory (x :: rest) h.2)
           [(bucket, key)]).
  { intros key Hk. constructor; [|done]. split; [done|].
    exists x. split; [by left | done]. }
  set (st := processFile fs bucket directory dryRun svc x) in *.
  destruct (step_res st) as [url|err]; simpl.
  - destruct (IH (step_remote st) (<[x:=url]> m)) as (Hsub & Hlen & Hall).
    rewrite uploads_app, heads_app, fmap_app, length_app.
    destruct Hst as [(key & Hk & -> & [-> | [data ->]])|[-> ->]]; simpl.
    + split; [by apply sublist_cons|]. split; [lia|].
      constructor; [|by apply Hweak]. by apply (Forall_inv (Hx key Hk)).
    + split; [by apply sublist_skip|]. split; [lia|].
      constructor; [|by apply Hweak]. by apply (Forall_inv (Hx key Hk)).
    + split; [done|]. split; [lia | by apply Hweak].
  - destruct Hst as [(key & Hk & -> & [-> | [data ->]])|[-> ->]]; simpl.
    + split; [by apply sublist_nil_l|]. split; [lia | by apply Hx].
    + split; [done|]. split; [lia | by apply Hx].
    + split; [done|]. split; [lia | constructor].
Qed.

Lemma uploadLoop_ok_trace fs bucket directory dryRun filenames svc m :
  let run := uploadLoop fs bucket directory dryRun filenames svc m in
  let t := run_trace run in
  let keyOf x := default "" (objectKey fs directory x) in
  run_err run = None →
  heads t = (λ x, (bucket, keyOf x)) <$> filenames
  ∧ (outcomes t).*2 = filenames
  ∧ (dryRun = false →
     length (uploads t) = length (filter (λ o, o.1 = "Uploaded") (outcomes t))).
Proof.
  revert svc m. induction filenames as [|x rest IH]; intros svc m; simpl; [done|].
  pose proof (processFile_stepOf fs bucket directory dryRun svc x) as Hst.
  set (st := processFile fs bucket directory dryRun svc x) in *.
  destruct (step_res st) as [url|err] eqn:Hres; simpl; [|done].
  intros Herr. destruct (IH _ _ Herr) as (Hh & Ho & Hu).
  destruct (stepOf_ok _ _ _ _ _ _ _ _ Hst Hres)
    as (key & word & Hk & _ & Hh1 & Ho1 & Hu1).
  rewrite heads_app, outcomes_app, uploads_app, Hh1, Ho1, Hh, Hk.
  rewrite fmap_app, Ho. repeat split; try done.
  intros Hdry. rewrite length_app, (Hu Hdry), (Hu1 Hdry).
  rewrite filter_app, length_app. done.
Qed.

Lemma uploadLoop_failed fs bucket directory dryRun filenames svc m (err : error) :
  let run := uploadLoop fs bucket directory dryRun filenames svc m in
  run_err run = Some err →
  ∃ pre f post,
    filenames = pre ++ f :: post
    ∧ Forall (λ x, is_Some (objectKey fs directory x)) pre
    ∧ run_manifest run = foldl (record fs bucket directory) m pre
    ∧ (outcomes (run_trace run)).*2 = pre
    ∧ length (heads (run_trace run)) ≤ S (length pre).
Proof.
  revert svc m. induction filenames as [|x rest IH]; intros svc m; simpl; [done|].
  pose proof (processFile_stepOf fs bucket directory dryRun svc x) as Hst.
  set (st := processFile fs bucket directory dryRun svc x) in *.
  destruct (step_res st) as [url|e] eqn:Hres; simpl.
  - intros Herr. destruct (IH _ _ Herr) as (pre & f & post & -> & Hall & Hm & Ho & Hh).
    destruct (stepOf_ok _ _ _ _ _ _ _ _ Hst Hres)
      as (key & word & Hk & -> & Hh1 & Ho1 & _).
    exists (x :: pre), f, post. split; [done|].
    split; [by constructor; eauto|].
    rewrite heads_app, outcomes_app, Hh1, Ho1, fmap_app, Ho, Hm. simpl.
    rewrite (record_key _ _ _ _ _ _ Hk). repeat split; try done. lia.
  - intros _. destruct (stepOf_failed _ _ _ _ _ _ _ _ Hst Hres) as [-> Hh].
    exists [], x, rest. repeat split; done.
Qed.

End Requests.

(** ** The orchestrator as a whole *)

Section Runs.
Context `{!GoLib} {R : Type} `{!S3API R}.
Implicit Types (fs : gmap string node) (svc : R) (m : gmap string string).
Implicit Types (bucket directory filename key : string) (filenames : list string).

(** X8. Every upload the orchestrator sends goes to the target bucket,
    under the key composed for one of the input files, with the fixed cache
    control, the expiry ten years from now and the content type of the
    key's extension. *)
Theorem VersionAndUploadFiles_requests fs svc bucket directory filenames dryRun :
  Forall (λ req, ∃ data, req = uploadRequest bucket (put_Key req) data
                         ∧ composedFrom fs directory filenames (put_Key req))
         (uploads (run_trace
            (VersionAndUploadFiles fs svc bucket directory filenames dryRun))).
Proof. unfold VersionAndUploadFiles. simpl. apply uploadLoop_requests. Qed.

(** X9. Uploads go only where a check was made: the buckets and keys of
    the uploads form a subsequence of those of the existence checks; there
    is at most one check per input file, each in the target bucket and for
    a key composed for one of the files. *)
Theorem VersionAndUploadFiles_checks_first fs svc bucket directory filenames dryRun :
  let t := run_trace (VersionAndUploadFiles fs svc bucket directory filenames dryRun) in
  ((λ req, (put_Bucket req, put_Key req)) <$> uploads t) `sublist_of` heads t
  ∧ length (heads t) ≤ length filenames
  ∧ Forall (λ h, h.1 = bucket ∧ composedFrom fs directory filenames h.2) (heads t).
Proof. unfold VersionAndUploadFiles. simpl. apply uploadLoop_heads. Qed.

(** X10. A run that succeeds has checked every input file once, in order,
    and printed one outcome line per file, in order; in a real run the
    number of uploads sent is the number of lines that say Uploaded. *)
Theorem VersionAndUploadFiles_success_trace fs svc bucket directory filenames dryRun :
  let run := VersionAndUploadFiles fs svc bucket directory filenames dryRun in
  let t := run_trace run in
  let keyOf x := default "" (objectKey fs directory x) in
  run_err run = None →
  heads t = (λ x, (bucket, keyOf x)) <$> filenames
  ∧ (outcomes t).*2 = filenames
  ∧ (dryRun = false →
     length (uploads t) = length (filter (λ o, o.1 = "Uploaded") (outcomes t))).
Proof. unfold VersionAndUploadFiles. simpl. apply uploadLoop_ok_trace. Qed.

(** X11. A run that fails stops at the first file that fails: the
    manifest it returns has exactly the files before that one, outcome
    lines were printed for exactly those, and at most one existence check
    more than that was made. *)
Theorem VersionAndUploadFiles_fails_fast fs svc bucket directory filenames dryRun
    (err : error) :
  let run := VersionAndUploadFiles fs svc bucket directory filenames dryRun in
  run_err run = Some err →
  ∃ pre f post,
    filenames = pre ++ f :: post
    ∧ Forall (λ x, is_Some (objectKey fs directory x)) pre
    ∧ run_manifest run = foldl (record fs bucket directory) ∅ pre
    ∧ dom (run_manifest run) = list_to_set pre
    ∧ (outcomes (run_trace run)).*2 = pre
    ∧ length (heads (run_trace run)) ≤ S (length pre).
Proof.
  unfold VersionAndUploadFiles. simpl. intros Herr.
  destruct (uploadLoop_failed _ _ _ _ _ _ _ _ Herr)
    as (pre & f & post & Hsplit & Hall & Hm & Ho & Hh).
  exists pre, f, post. repeat split; try done.
  rewrite Hm. apply set_eq. intros x.
  rewrite elem_of_dom, elem_of_list_to_set, lookup_foldl_record, lookup_empty by done.
  destruct (decide (x ∈ pre)) as [Hx|Hx]; [|by split; [intros [? ?]|]].
  split; [done|]. intros _. rewrite Forall_forall in Hall.
  destruct (Hall x Hx) as [key Hkey]. unfold resolvedURL. rewrite Hkey. by eexists.
Qed.

(** *** A store that keeps what was put *)

Section Keeping.
Context `{!KeepsObjects R}.

Lemma stepOf_keeps fs bucket directory dryRun svc filename (st : Step R)
    (url b k : string) :
  stepOf fs bucket directory dryRun svc filename st →
  step_res st = inl url →
  HeadObject svc b k = None → HeadObject (step_remote st) b k = None.
Proof.
  intros []; simpl; intros [=] Hhead; try done.
  by eapply put_keeps.
Qed.

Lemma stepOf_present fs bucket directory svc filename (st : Step R) (url key : string) :
  stepOf fs bucket directory false svc filename st →
  step_res st = inl url →
  objectKey fs directory filename = Some key →
  HeadObject (step_remote st) bucket key = None.
Proof.
  intros [] [=] Hkey; simpl; try done.
  - assert (key0 = key) as -> by congruence.
    unfold HasPreviousUpload in *. by destruct (HeadObject svc bucket key).
  - assert (key0 = key) as -> by congruence.
    by apply (put_present svc svc' (uploadRequest bucket key data)).
Qed.

Lemma uploadLoop_keeps fs bucket directory dryRun filenames svc m (b k : string) :
  run_err (uploadLoop fs bucket directory dryRun filenames svc m) = None →
  HeadObject svc b k = None →
  HeadObject (run_remote (uploadLoop fs bucket directory dryRun filenames svc m)) b k
  = None.
Proof.
  revert svc m. induction filenames as [|x rest IH]; intros svc m; simpl; [done|].
  pose proof (processFile_stepOf fs bucket directory dryRun svc x) as Hst.
  set (st := processFile fs bucket directory dryRun svc x) in *.
  destruct (step_res st) as [url|e] eqn:Hres; simpl; [|done].
  intros Herr Hhead. apply IH; [done|]. by eapply stepOf_keeps.
Qed.

Lemma uploadLoop_all_there fs bucket directory filenames svc m :
  run_err (uploadLoop fs bucket directory false filenames svc m) = None →
  ∀ x key, x ∈ filenames → objectKey fs directory x = Some key →
    HeadObject (run_remote (uploadLoop fs bucket directory false filenames svc m))
               bucket key = None.
Proof.
  revert svc m. induction filenames as [|x rest IH]; intros svc m; simpl.
  { intros _ y key Hy. by apply elem_of_nil in Hy. }
  pose proof (processFile_stepOf fs bucket directory false svc x) as Hst.
  set (st := processFile fs bucket directory false svc x) in *.
  destruct (step_res st) as [url|e] eqn:Hres; simpl; [|done].
  intros Herr y key [->|Hy]%elem_of_cons Hkey.
  - apply uploadLoop_keeps; [done|]. by eapply stepOf_present.
  - by eapply IH.
Qed.

(** X13. On a store that keeps what was put, a real run that succeeded
    leaves every file's key present, so that running again over the same
    files (dry or not) returns the same manifest without sending any
    upload and leaves the store as it is. *)
Theorem VersionAndUploadFiles_idempotent fs svc bucket directory filenames dryRun' :
  let run1 := VersionAndUploadFiles fs svc bucket directory filenames false in
  let run2 := VersionAndUploadFiles fs (run_remote run1) bucket directory
                                    filenames dryRun' in
  run_err run1 = None →
  (∀ x key, x ∈ filenames → objectKey fs directory x = Some key →
     HasPreviousUpload (run_remote run1) bucket key = true)
  ∧ run_err run2 = None
  ∧ run_manifest run2 = run_manifest run1
  ∧ uploads (run_trace run2) = []
  ∧ run_remote run2 = run_remote run1.
Proof.
  unfold VersionAndUploadFiles. simpl. intros Herr.
  pose proof (uploadLoop_all_there _ _ _ _ _ _ Herr) as Hthere.
  apply uploadLoop_success in Herr as [Hall Hm1].
  destruct (uploadLoop_all_present fs bucket directory dryRun' filenames
              _ ∅ Hall Hthere) as (? & Hm2 & ? & ? & _).
  repeat split; try done.
  - intros x key Hx Hkey. unfold HasPreviousUpload. by rewrite (Hthere x key).
  - by rewrite Hm1, Hm2.
Qed.

End Keeping.
End Runs.

(** X12. The manifest of a successful run depends only on the files, the
    bucket and the directory: two successful runs agree on it whatever the
    stores hold and whether or not either is a dry run. *)
Theorem VersionAndUploadFiles_manifest_independent `{!GoLib}
    {R1 R2 : Type} `{!S3API R1} `{!S3API R2}
    (fs : gmap string node) (svc1 : R1) (svc2 : R2) (bucket directory : string)
    (filenames : list string) (dry1 dry2 : bool) :
  run_err (VersionAndUploadFiles fs svc1 bucket directory filenames dry1) = None →
  run_err (VersionAndUploadFiles fs svc2 bucket directory filenames dry2) = None →
  run_manifest (VersionAndUploadFiles fs svc1 bucket directory filenames dry1)
  = run_manifest (VersionAndUploadFiles fs svc2 bucket directory filenames dry2).
Proof.
  unfold VersionAndUploadFiles. simpl. intros H1 H2.
  apply uploadLoop_success in H1 as [_ ->].
  by apply uploadLoop_success in H2 as [_ ->].
Qed.

(** ** The process *)

Section Process.
Context `{!GoLib} {R : Type} `{!S3API R}.
Implicit Types (fs : gmap string node) (svc : R) (flags : Flags).
Implicit Types (env : gmap string string).

Lemma WriteFile_ok fs (name : string) (data : list byte) (fs' : gmap string node) :
  WriteFile fs name data = inl fs' → fs' = <[name := Regular data]> fs.
Proof.
  unfold WriteFile. destruct (decide (name = "")); [done|].
  destruct (fs !! name) as [[?|]|]; congruence.
Qed.

Lemma VersionAndUploadFiles_writes fs svc (bucket directory : string)
    (filenames : list string) (dryRun : bool) :
  writes (run_trace (VersionAndUploadFiles fs svc bucket directory filenames dryRun)) = [].
Proof. unfold VersionAndUploadFiles. simpl. apply uploadLoop_writes. Qed.


(** X15. A real run of the process that exits with status 0 has expanded
    the glob list, run the orchestrator over all the files found without
    error, formatted its manifest and written exactly that to the output
    file; nothing else on disk has changed. *)
Theorem main_success_writes_manifest flags env fs svc :
  let p := main flags env fs svc in
  printVersion flags = false → dryRun flags = false →
  exit_status p = 0 →
  ∃ files output,
    GetFilesFromGlobsList fs (filesArg flags) = (files, None)
    ∧ let run := VersionAndUploadFiles fs svc (s3Bucket flags) (directory flags)
                   files false in
      run_err run = None
      ∧ FormatManifest (run_manifest run) (format flags) = (output, None)
      ∧ proc_fs p = <[outputFilename flags := Regular output]> fs
      ∧ proc_remote p = run_remote run
      ∧ writes (proc_trace p) = [(outputFilename flags, output)].
Proof.
  intros p Hver Hdry. subst p. unfold main, fatal. rewrite Hver, Hdry.
  destruct (decide _); [done|].
  destruct (GetFilesFromGlobsList fs (filesArg flags)) as [files [err|]]; [done|].
  destruct (SetupS3Uploader env); [done|].
  pose proof (VersionAndUploadFiles_writes fs svc (s3Bucket flags) (directory flags)
                files false) as Hw.
  destruct (run_err _) eqn:Herr; [done|].
  destruct (FormatManifest _ _) as [output [err|]] eqn:Hfmt; [done|].
  cbn [exit_status proc_fs proc_trace proc_remote negb].
  destruct (WriteFile _ _ _) as [fs'|err] eqn:Hwrite; [|done].
  cbn [exit_status proc_fs proc_trace proc_remote].
  intros _. exists files, output. apply WriteFile_ok in Hwrite as ->.
  repeat split; try done.
  by rewrite !writes_app, Hw.
Qed.


End Process.

(** The in-memory store keeps what was put. *)
Lemma memS3_keeps : @KeepsObjects store memS3.
Proof.
  split.
  - intros svc svc' req [= <-]. cbn. unfold memHead. by rewrite lookup_insert_eq.
  - intros svc svc' req bucket key [= <-]. cbn. unfold memHead.
    destruct (decide ((put_Bucket req, put_Key req) = (bucket, key))) as [->|Hne].
    + by rewrite lookup_insert_eq.
    + by rewrite lookup_insert_ne.
Qed.

(** ** The extension of a versioned name *)

Lemma get_append_r (p q : string) (i : nat) :
  String.get (String.length p + i) (p +:+ q) = String.get i q.
Proof. induction p as [|c p IH]; simpl; done. Qed.

Lemma get_lt (s : string) (i : nat) :
  i < String.length s → ∃ c, String.get i s = Some c.
Proof.
  revert i. induction s as [|x s IH]; intros i; simpl; [lia|].
  destruct i as [|i]; [by eexists|]. intros Hi. apply IH. lia.
Qed.

Lemma get_Some_lt (s : string) (i : nat) (c : ascii) :
  String.get i s = Some c → i < String.length s.
Proof.
  revert i. induction s as [|x s IH]; intros i; simpl; [done|].
  destruct i as [|i]; [lia|]. intros Hi. apply IH in Hi. lia.
Qed.

Lemma drop_get (s : string) (j : nat) (c : ascii) :
  String.get j s = Some c → strings.drop j s = String c (strings.drop (S j) s).
Proof.
  revert j. induction s as [|x s IH]; intros j; simpl; [done|].
  destruct j as [|j]; [by intros [= ->]; destruct s|].
  intros Hj. by apply IH.
Qed.

Lemma get_drop (s : string) (j i : nat) :
  String.get i (strings.drop j s) = String.get (j + i) s.
Proof.
  revert s. induction j as [|j IH]; intros [|x s]; simpl; done.
Qed.

Lemma Ext_from_skip (s : string) (n k : nat) :
  (∀ i, n ≤ i < n + k →
        ∃ c, String.get i s = Some c
             ∧ filepath.IsPathSeparator c = false ∧ Ascii.eqb c "." = false) →
  filepath.Ext_from s (n + k) = filepath.Ext_from s n.
Proof.
  induction k as [|k IH]; intros Hplain.
  - by rewrite Nat.add_0_r.
  - replace (n + S k) with (S (n + k)) by lia. simpl.
    destruct (Hplain (n + k)) as (c & -> & -> & ->); [lia|].
    apply IH. intros i Hi. apply Hplain. lia.
Qed.

(** A non-empty extension is a dot followed by characters that are neither
    dots nor path separators, and it ends the filename. *)
Lemma Ext_from_dot (s : string) (n : nat) :
  filepath.Ext_from s n ≠ "" →
  (∀ i, n ≤ i < String.length s →
        ∃ c, String.get i s = Some c
             ∧ filepath.IsPathSeparator c = false ∧ Ascii.eqb c "." = false) →
  ∃ j, String.get j s = Some "."%char
       ∧ filepath.Ext_from s n = strings.drop j s
       ∧ ∀ i, j < i < String.length s →
              ∃ c, String.get i s = Some c
                   ∧ filepath.IsPathSeparator c = false ∧ Ascii.eqb c "." = false.
Proof.
  induction n as [|i IH]; simpl; [done|].
  destruct (String.get i s) as [c|] eqn:Hget; [|done].
  destruct (filepath.IsPathSeparator c) eqn:Hsep; [done|].
  destruct (Ascii.eqb c ".") eqn:Hdot.
  - intros _ Hplain. apply Ascii.eqb_eq in Hdot as ->. exists i.
    split; [done|]. split; [done|]. intros k Hk. apply Hplain. lia.
  - intros Hne Hplain. apply IH; [done|]. intros k Hk.
    destruct (decide (k = i)) as [->|]; [by exists c|]. apply Hplain. lia.
Qed.

Lemma Ext_dotPlain (s : string) :
  filepath.Ext s ≠ "" → dotPlain (filepath.Ext s).
Proof.
  intros Hne. destruct (Ext_from_dot s (String.length s) Hne) as (j & Hj & He & Hplain).
  { intros i Hi. lia. }
  unfold filepath.Ext. rewrite He, (drop_get _ _ _ Hj).
  exists (strings.drop (S j) s). split; [done|].
  intros i c Hi. rewrite get_drop in Hi.
  destruct (Hplain (S j + i)) as (c' & Hc' & Hs & Hd).
  { apply get_Some_lt in Hi. lia. }
  by assert (c = c') as -> by congruence.
Qed.

Lemma Ext_append_dotPlain (q e : string) : dotPlain e → filepath.Ext (q +:+ e) = e.
Proof.
  intros (e' & -> & Hplain). unfold filepath.Ext.
  rewrite length_append. simpl.
  replace (String.length q + S (String.length e'))
    with (S (String.length q) + String.length e') by lia.
  rewrite Ext_from_skip.
  - simpl. rewrite <- (Nat.add_0_r (String.length q)) at 1.
    rewrite get_append_r. simpl.
    rewrite <- (Nat.add_0_r (String.length q)) at 1.
    assert (Hd := drop_append_length q (String "." e')).
    by rewrite Nat.add_0_r.
  - intros i Hi.
    replace i with (String.length q + S (i - S (String.length q))) by lia.
    rewrite get_append_r. simpl.
    destruct (get_lt e' (i - S (String.length q))) as [c Hc]; [lia|].
    exists c. split; [done|]. by apply (Hplain _ _ Hc).
Qed.

Lemma get_append_l (p q : string) (i : nat) :
  i < String.length p → String.get i (p +:+ q) = String.get i p.
Proof.
  revert i. induction p as [|c p IH]; intros i; simpl; [lia|].
  destruct i as [|i]; [done|]. intros Hi. apply IH. lia.
Qed.

Lemma length_zero (s : string) : String.length s = 0 → s = "".
Proof. by destruct s. Qed.

(** Of two suffixes of one string, the shorter ends the longer. *)
Lemma suffix_of_suffix (a e b t : string) :
  a +:+ e = b +:+ t → String.length e ≤ String.length t → ∃ k, t = k +:+ e.
Proof.
  revert a. induction b as [|c b IH]; intros a; simpl.
  - intros <- _. by exists a.
  - destruct a as [|x a]; simpl.
    + intros -> Hlen. simpl in Hlen. rewrite length_append in Hlen. lia.
    + intros [= _ E]. by apply (IH a).
Qed.

(** X17. A filename that has an extension keeps it when versioned, so
    the content type looked up for the versioned name is that of the
    original name. *)
Theorem GetVersionedFilename_keeps_Ext `{!GoLib} (filename version : string) :
  filepath.Ext filename ≠ "" →
  filepath.Ext (GetVersionedFilename filename version) = filepath.Ext filename
  ∧ GetFileMimeType (GetVersionedFilename filename version) = GetFileMimeType filename.
Proof.
  intros Hne.
  cut (filepath.Ext (GetVersionedFilename filename version) = filepath.Ext filename).
  { intros E. split; [done|]. unfold GetFileMimeType. by rewrite E. }
  pose proof (Ext_dotPlain filename Hne) as Hdp.
  destruct (Ext_suffix filename) as [stem Hstem].
  destruct (Index_Ext filename) as [j Hj].
  destruct (Index_Some _ _ _ Hj) as [Hsplit Hlen].
  rewrite (GetVersionedFilename_at _ _ j Hj).
  set (ext := filepath.Ext filename) in *.
  set (pre := strings.take j filename) in *.
  set (post := strings.drop (j + String.length ext) filename) in *.
  assert (Hends : post = "" ∨ ∃ k, post = k +:+ ext).
  { destruct (decide (String.length post = 0)) as [Hz|Hnz];
      [left; by apply length_zero|right].
    destruct (decide (String.length ext ≤ String.length post)) as [Hle|Hgt].
    - apply (suffix_of_suffix stem ext (pre +:+ ext) post); [|done].
      by rewrite append_assoc, <- Hstem.
    - exfalso. destruct Hdp as (e' & He & Hplain).
      assert (Hl := f_equal String.length Hstem).
      assert (Hl' := f_equal String.length Hsplit).
      rewrite length_append in Hl. rewrite !length_append in Hl'.
      assert (Hdot : String.get (String.length stem) filename = Some "."%char).
      { rewrite Hstem, <- (Nat.add_0_r (String.length stem)), get_append_r.
        by rewrite He. }
      replace (String.length stem)
        with (String.length pre + String.length post) in Hdot by lia.
      rewrite Hsplit, get_append_r, get_append_l in Hdot by lia.
      rewrite He in Hdot, Hl. simpl in Hl.
      destruct (String.length post) as [|n]; [done|]. simpl in Hdot.
      by destruct (Hplain _ _ Hdot) as [_ ?]. }
  destruct Hends as [->|[k ->]].
  - rewrite append_empty_r, <- !append_assoc. by apply Ext_append_dotPlain.
  - rewrite <- !append_assoc. by apply Ext_append_dotPlain.
Qed.

Lemma dotPlain_occurs (e' : string) :
  occurs "." e' = false → occurs "/" e' = false → dotPlain (String "." e').
Proof.
  intros Hdot Hsep. exists e'. split; [done|].
  induction e' as [|x e' IH]; intros i c; simpl; [done|].
  simpl in Hdot, Hsep.
  apply orb_false_iff in Hdot as [Hd1 Hd2]. apply orb_false_iff in Hsep as [Hs1 Hs2].
  destruct i as [|i]; [by intros [= <-]|]. by apply IH.
Qed.

Lemma Index_after_dotless (stem e' : string) :
  occurs "." stem = false →
  strings.Index (stem +:+ String "." e') (String "." e') = Some (String.length stem).
Proof.
  induction stem as [|c stem IH]; cbn [String.append String.length occurs].
  - intros _. rewrite Index_cons.
    assert (Hp := HasPrefix_app (String "." e') ""). rewrite append_empty_r in Hp.
    by rewrite Hp.
  - intros [Hc Hstem]%orb_false_iff. rewrite Index_cons.
    cbn [strings.HasPrefix]. rewrite Ascii.eqb_sym, Hc. cbn [andb].
    by rewrite (IH Hstem).
Qed.

(** X18. A name made of a stem without dots and an extension (a dot and
    characters that are neither dots nor separators) is versioned as
    [stem.version.ext]: [app.js] becomes [app.<version>.js], directories
    included. *)
Theorem GetVersionedFilename_dotless_stem (stem e' version : string) :
  occurs "." stem = false →
  occurs "." e' = false → occurs "/" e' = false →
  filepath.Ext (stem +:+ String "." e') = String "." e'
  ∧ GetVersionedFilename (stem +:+ String "." e') version
    = stem +:+ "." +:+ version +:+ String "." e'.
Proof.
  intros Hstem Hdot Hsep.
  assert (Hext : filepath.Ext (stem +:+ String "." e') = String "." e').
  { apply Ext_append_dotPlain. by apply dotPlain_occurs. }
  split; [done|].
  rewrite (GetVersionedFilename_suffix stem version); rewrite Hext; try done.
  by apply Index_after_dotless.
Qed.

(** ** The further properties on the example build directory *)

Section MoreExamples.
#[local] Existing Instance exampleLib.
#[local] Existing Instance memS3.

Lemma X2_witness :
  GetVersionedFilename "app.js" "abc" ≠ GetVersionedFilename "app.js" "abd"
  ∧ GetVersionedFilename "app.js" "abc" ≠ "app.js".
Proof. apply (GetVersionedFilename_version_inj "app.js" "abc" "abd"). discriminate. Defined.

Lemma X4_witness :
  String.length (GetFileMd5 (os.mkFile "app.js" (Regular [x61; x62; x63]) 0)).1.1 = 32.
Proof.
  apply (GetFileMd5_fingerprint "app.js" "copy.js" [x61; x62; x63] [x61; x62; x63]);
    vm_compute; reflexivity.
Defined.

Lemma X6_witness :
  GetFilesFromGlobsList exampleFs plainGlobs = (["app.js"; "logo.png"], None).
Proof.
  etrans.
  - apply (GetFilesFromGlobsList_plain exampleFs plainGlobs).
    vm_compute. repeat constructor.
  - vm_compute. reflexivity.
Defined.

Lemma X7_witness :
  GetFilesFromGlobsList (H := strictLib) exampleFs badGlobs
  = (["app.js"], Some ErrBadPattern).
Proof.
  etrans.
  - apply (GetFilesFromGlobsList_error (H := strictLib) exampleFs badGlobs
             ["app.js"] ["logo.png"] "[" ErrBadPattern).
    + vm_compute. reflexivity.
    + repeat constructor.
    + vm_compute. reflexivity.
  - vm_compute. reflexivity.
Defined.

Lemma X10_witness :
  let t := run_trace (VersionAndUploadFiles exampleFs (∅ : store) defaultS3Bucket "v1"
                                            exampleFiles false) in
  (outcomes t).*2 = exampleFiles
  ∧ length (uploads t) = length (filter (λ o, o.1 = "Uploaded") (outcomes t)).
Proof.
  intros t.
  destruct (VersionAndUploadFiles_success_trace exampleFs (∅ : store) defaultS3Bucket
              "v1" exampleFiles false) as (_ & Ho & Hu).
  { vm_compute. reflexivity. }
  split; [exact Ho | exact (Hu eq_refl)].
Defined.

Lemma X11_witness :
  ∃ pre f post,
    brokenFiles = pre ++ f :: post
    ∧ dom (run_manifest (VersionAndUploadFiles exampleFs (∅ : store) defaultS3Bucket
                           "v1" brokenFiles false)) = list_to_set pre.
Proof.
  destruct (VersionAndUploadFiles_fails_fast exampleFs (∅ : store) defaultS3Bucket
              "v1" brokenFiles false (PathError "open" "missing.js" os.ENOENT))
    as (pre & f & post & Hsplit & _ & _ & Hdom & _).
  { vm_compute. reflexivity. }
  exists pre, f, post. split; [exact Hsplit | exact Hdom].
Defined.

Lemma X12_witness :
  run_manifest (VersionAndUploadFiles exampleFs (∅ : store) defaultS3Bucket "v1"
                                      exampleFiles true)
  = run_manifest (VersionAndUploadFiles exampleFs (∅ : store) defaultS3Bucket "v1"
                                        exampleFiles false).
Proof.
  apply VersionAndUploadFiles_manifest_independent; vm_compute; reflexivity.
Defined.

Lemma X13_witness :
  let run1 := VersionAndUploadFiles exampleFs (∅ : store) defaultS3Bucket "v1"
                                    exampleFiles false in
  let run2 := VersionAndUploadFiles exampleFs (run_remote run1) defaultS3Bucket "v1"
                                    exampleFiles false in
  uploads (run_trace run2) = [] ∧ run_manifest run2 = run_manifest run1.
Proof.
  intros run1 run2.
  destruct (VersionAndUploadFiles_idempotent (KeepsObjects0 := memS3_keeps)
              exampleFs (∅ : store) defaultS3Bucket "v1" exampleFiles false)
    as (_ & _ & Hm & Hu & _).
  { vm_compute. reflexivity. }
  split; [exact Hu | exact Hm].
Defined.


Lemma X15_witness :
  ∃ output,
    proc_fs (main noFilesFlags exampleEnv exampleFs (∅ : store))
    = <["staticAssets.json" := Regular output]> exampleFs.
Proof.
  destruct (main_success_writes_manifest noFilesFlags exampleEnv exampleFs (∅ : store))
    as (files & output & _ & _ & _ & Hfs & _).
  - reflexivity.
  - reflexivity.
  - vm_compute. reflexivity.
  - exists output. exact Hfs.
Defined.


Lemma X17_witness :
  filepath.Ext (GetVersionedFilename "data.json.js" "abc") = ".js".
Proof.
  apply (GetVersionedFilename_keeps_Ext "data.json.js" "abc"). discriminate.
Defined.

Lemma X18_witness :
  GetVersionedFilename "public/css/site.css" "0f" = "public/css/site.0f.css".
Proof.
  apply (GetVersionedFilename_dotless_stem "public/css/site" "css" "0f"); reflexivity.
Defined.

End MoreExamples.
